(** * Nuan Colour: the contact-form handler of [src/app.js]

    A shallow embedding of the Express application's [POST /contact-us]
    route: the express-validator chains of [validateForm], the request
    handler with its awaited network calls, and the process-wide variable
    [data] the handler assigns. *)

From Stdlib Require Import Floats Ascii String.
From stdpp Require Import gmap strings list.

Local Open Scope string_scope.
Set Warnings "-register-all,-inexact-float".

(** ** JavaScript values *)

(** A string is a sequence of code units; the model keeps the code units
    below 256, one [ascii] each. *)

(** What [express.urlencoded({ extended: true })] puts in [req.body]: strings,
    arrays and nested objects ([service[]=a], [service[toString]=x]).  An
    object is the list of its own properties, in the order in which
    [Object.getOwnPropertyNames] lists them; none of them is callable.
    [VBool] is there for the [false] that validator.js's [normalizeEmail]
    returns and express-validator stores. *)
Inductive value : Type :=
| VStr (s : string)
| VBool (b : bool)
| VArr (l : list value)
| VObj (l : list (string * value)).

(** [req.body], [formData]: a JS object used as a map from field names. An
    absent key reads as [undefined], here [None]. *)
Abbreviation body := (gmap string value).

(** [Array.prototype.join]. *)
Fixpoint join (sep : string) (l : list string) : string :=
  match l with
  | [] => ""
  | [s] => s
  | s :: l' => s +:+ sep +:+ join sep l'
  end.

(** The own property [k] of an object. *)
Fixpoint own_property (k : string) (l : list (string * value)) : option value :=
  match l with
  | [] => None
  | (k', v) :: l' => if String.eqb k k' then Some v else own_property k l'
  end.

(** [String(v)], the conversion of a template literal and of
    [Array.prototype.join]; [None] when it throws a [TypeError].  An object
    is converted by its [toString] method: the inherited one answers
    ["[object Object]"]; an own property [toString] hides it and is not
    callable, the inherited [valueOf] returns the object itself, and the
    conversion throws. *)
Fixpoint js_string (v : value) : option string :=
  match v with
  | VStr s => Some s
  | VBool true => Some "true"
  | VBool false => Some "false"
  | VArr l => join "," <$> mapM js_string l
  | VObj l =>
      match own_property "toString" l with
      | Some _ => None
      | None => Some "[object Object]"
      end
  end.

(** [String(x)] where [x] may be [undefined] (template literals). *)
Definition js_string_opt (v : option value) : option string :=
  match v with
  | Some x => js_string x
  | None => Some "undefined"
  end.

(** [ToBoolean]: [undefined], the empty string and [false] are falsy. *)
Definition truthy (v : option value) : bool :=
  match v with
  | None => false
  | Some (VStr s) => negb (String.eqb s "")
  | Some (VBool b) => b
  | Some (VArr _) => true
  | Some (VObj _) => true
  end.

(** ** validator.js *)

(** The characters matched by the regular expression [\s], among the code
    units below 256. *)
Definition is_space (c : ascii) : bool :=
  match c with
  | "009"%char | "010"%char | "011"%char | "012"%char | "013"%char
  | " "%char | "160"%char => true
  | _ => false
  end.

Fixpoint ltrim (s : string) : string :=
  match s with
  | String c s' => if is_space c then ltrim s' else s
  | EmptyString => EmptyString
  end.

Fixpoint rtrim (s : string) : string :=
  match s with
  | String c s' =>
      match rtrim s' with
      | EmptyString => if is_space c then EmptyString else String c EmptyString
      | r => String c r
      end
  | EmptyString => EmptyString
  end.

(** [trim(str)] is [rtrim(ltrim(str))]. *)
Definition trim (s : string) : string := rtrim (ltrim s).

(** [escape(str)] replaces [&], the double quote, ['], [<], [>], [/], [\] and
    the backquote, in this order; no replacement text holds a character that
    a later replacement looks for, so one pass per character does the same. *)
Definition escape_char (c : ascii) : string :=
  match c with
  | "&"%char => "&amp;"
  | "034"%char => "&quot;"
  | "'"%char => "&#x27;"
  | "<"%char => "&lt;"
  | ">"%char => "&gt;"
  | "/"%char => "&#x2F;"
  | "\"%char => "&#x5C;"
  | "`"%char => "&#96;"
  | _ => String c EmptyString
  end.

Fixpoint escape (s : string) : string :=
  match s with
  | String c s' => escape_char c +:+ escape s'
  | EmptyString => EmptyString
  end.

(** [isEmpty(str)] with the default options. *)
Definition isEmpty (s : string) : bool := Nat.eqb (String.length s) 0.

(** [isLength(str, { min })] counts the code units of [str] less its
    surrogate pairs and variation selectors.  Neither fits in a code unit
    below 256: on the strings of this model the counted length is the
    number of code units. *)
Definition isLength (min : nat) (s : string) : bool := Nat.leb min (String.length s).

(** The two validator.js functions whose bodies are not modelled, and
    ECMAScript's [ToNumber] on what is not already a number. *)
Class Platform := {
  (** [normalizeEmail(str)]: the canonical address, or [false] ([None]). *)
  normalizeEmail : string -> option string;
  (** [isEmail(str)] with the default options. *)
  isEmail : string -> bool;
  (** [Number(str)] and [String(x)] for a number [x]. *)
  string_to_number : string -> float;
  number_to_string : float -> string;
}.

(** ** express-validator *)

(** One entry of [validationResult(req)]: the message and the offending
    value (the entry's [type], [path] and [location] are left out).  The
    literal [{ msg }] objects the handler builds for the [captcha] key have no
    [value]. *)
Record validation_error := { msg : string; value_of : option value }.

(** The items of a validation chain, in the order the chain lists them:
    a standard sanitizer, or a standard validator with its [negated] flag
    and the message [withMessage] attached to it. *)
Inductive chain_item : Type :=
| Sanitize (sanitizer : string -> value)
| Validate (validator : string -> bool) (negated : bool) (message : string).

(** express-validator's [toString], the string a standard validator or
    sanitizer is given; [None] when it throws a [TypeError].  [undefined]
    becomes the empty string.  An object with an own property [toString]
    (which is not a function) becomes the list of its own property names when
    that property is truthy; when it is falsy the function goes on to
    [isNaN(value)], which throws.  An array, here an element of the array
    the field holds, is converted by its [toString] method. *)
Definition to_string (v : option value) : option string :=
  match v with
  | None => Some ""
  | Some (VObj l) =>
      match own_property "toString" l with
      | None => Some "[object Object]"
      | Some t => if truthy (Some t) then Some (join "," (map fst l)) else None
      end
  | Some x => js_string x
  end.

(** Running one item on the value of a field in one location; [None] when
    [toString] throws.  A sanitizer's result replaces the value; a validator
    reports an error when its verdict equals its [negated] flag.  An array is
    handled element by element, as express-validator 7 does. *)
Definition run_item (it : chain_item) (v : option value)
  : option (option value * list validation_error) :=
  match it with
  | Sanitize f =>
      match v with
      | Some (VArr l) =>
          l' ← mapM (fun x => f <$> to_string (Some x)) l; Some (Some (VArr l'), [])
      | _ => s ← to_string v; Some (Some (f s), [])
      end
  | Validate p negated message =>
      let report x :=
        s ← to_string x;
        Some (if Bool.eqb (p s) negated
              then [{| msg := message; value_of := x |}] else []) in
      match v with
      | Some (VArr l) => es ← mapM (fun x => report (Some x)) l; Some (v, concat es)
      | _ => e ← report v; Some (v, e)
      end
  end.

(** A chain on the value of a field in one location. *)
Fixpoint run_chain (items : list chain_item) (v : option value)
  : option (option value * list validation_error) :=
  match items with
  | [] => Some (v, [])
  | it :: rest =>
      '(v1, e1) ← run_item it v;
      '(v2, e2) ← run_chain rest v1;
      Some (v2, (e1 ++ e2)%list)
  end.

(** The places of a request in which [check] looks for a field, in the
    order in which it goes through them. *)
Inductive location : Type := Body | Cookies | Headers | Params | Query.

Definition locations : list location := [Body; Cookies; Headers; Params; Query].

(** A request, as far as [check] and the handler read it: [req.body],
    [req.cookies], [req.headers], [req.params] and [req.query], each a map
    from names.  (The application installs no cookie parser and the route has
    no parameter: its requests hold nothing in [cookies_of] and
    [params_of].) *)
Record request := {
  body_of : body;
  cookies_of : body;
  headers_of : body;
  params_of : body;
  query_of : body;
}.

(** [req[location]]. *)
Definition req_at (r : request) (loc : location) : body :=
  match loc with
  | Body => body_of r
  | Cookies => cookies_of r
  | Headers => headers_of r
  | Params => params_of r
  | Query => query_of r
  end.

(** [_.set(req[location], field, x)]. *)
Definition req_set (r : request) (loc : location) (field : string) (x : value) : request :=
  match loc with
  | Body =>
      {| body_of := <[field := x]> (body_of r); cookies_of := cookies_of r;
         headers_of := headers_of r; params_of := params_of r; query_of := query_of r |}
  | Cookies =>
      {| body_of := body_of r; cookies_of := <[field := x]> (cookies_of r);
         headers_of := headers_of r; params_of := params_of r; query_of := query_of r |}
  | Headers =>
      {| body_of := body_of r; cookies_of := cookies_of r;
         headers_of := <[field := x]> (headers_of r); params_of := params_of r;
         query_of := query_of r |}
  | Params =>
      {| body_of := body_of r; cookies_of := cookies_of r; headers_of := headers_of r;
         params_of := <[field := x]> (params_of r); query_of := query_of r |}
  | Query =>
      {| body_of := body_of r; cookies_of := cookies_of r; headers_of := headers_of r;
         params_of := params_of r; query_of := <[field := x]> (query_of r) |}
  end.

(** The instances of a field that a chain item runs on ([Context.getData]):
    those of the locations where the field has a value, all of them; when no
    location has one, the first instance, which is that of [req.body]. *)
Definition instances (field : string) (r : request) : list location :=
  match filter (fun loc => is_Some (req_at r loc !! field)) locations with
  | [] => [Body]
  | l => l
  end.

(** One item on one instance: the item runs on [req[location][field]] and
    what it leaves is written back. *)
Definition run_item_at (it : chain_item) (field : string) (loc : location) (r : request)
  : option (request * list validation_error) :=
  '(v, errs) ← run_item it (req_at r loc !! field);
  Some (match v with Some x => req_set r loc field x | None => r end, errs).

(** One item on the instances [locs], in their order. *)
Fixpoint run_item_over (it : chain_item) (field : string) (locs : list location)
    (r : request) : option (request * list validation_error) :=
  match locs with
  | [] => Some (r, [])
  | loc :: rest =>
      '(r1, e1) ← run_item_at it field loc r;
      '(r2, e2) ← run_item_over it field rest r1;
      Some (r2, (e1 ++ e2)%list)
  end.

(** The runner of a chain ([ContextRunnerImpl.run]): item after item, each
    on the instances that [getData] then returns. *)
Fixpoint run_stack (items : list chain_item) (field : string) (r : request)
  : option (request * list validation_error) :=
  match items with
  | [] => Some (r, [])
  | it :: rest =>
      '(r1, e1) ← run_item_over it field (instances field r) r;
      '(r2, e2) ← run_stack rest field r1;
      Some (r2, (e1 ++ e2)%list)
  end.

(** The middleware [check(field)...]: it runs the chain and records the
    errors under the field's name.  [None]: an item threw, and the
    middleware passes the exception to [next]. *)
Definition check (field : string) (items : list chain_item) (r : request)
  : option (request * list (string * validation_error)) :=
  '(r', errs) ← run_stack items field r;
  Some (r', (pair field <$> errs : list (string * validation_error))).

(** The middlewares of a route run one after the other on the same request;
    the first one that passes an exception to [next] ends the run. *)
Fixpoint run_middlewares (chains : list (string * list chain_item)) (r : request)
  : option (request * list (string * validation_error)) :=
  match chains with
  | [] => Some (r, [])
  | (field, items) :: rest =>
      '(r1, e1) ← check field items r;
      '(r2, e2) ← run_middlewares rest r1;
      Some (r2, (e1 ++ e2)%list)
  end.

(** [normalizeEmail] as a sanitizer: its [false] is stored as it is. *)
Definition normalizeEmail_value `{Platform} (s : string) : value :=
  match normalizeEmail s with
  | Some e => VStr e
  | None => VBool false
  end.

(** The four chains of [validateForm], lines 22-48.  [notEmpty()] is
    [isEmpty] negated. *)
Definition first_name_chain : list chain_item :=
  [ Sanitize (fun s => VStr (trim s));
    Sanitize (fun s => VStr (escape s));
    Validate isEmpty true "First name is required";
    Validate (isLength 3) false "First name must be at least 3 characters long" ].

Definition last_name_chain : list chain_item :=
  [ Sanitize (fun s => VStr (trim s));
    Sanitize (fun s => VStr (escape s));
    Validate isEmpty true "Last name is required";
    Validate (isLength 2) false "Last name must be at least 2 characters long" ].

Definition email_chain `{Platform} : list chain_item :=
  [ Sanitize (fun s => VStr (trim s));
    Sanitize normalizeEmail_value;
    Validate isEmail false "Email is not valid" ].

Definition message_chain : list chain_item :=
  [ Sanitize (fun s => VStr (trim s));
    Sanitize (fun s => VStr (escape s));
    Validate isEmpty true "Message is required" ].

(** [validateForm], lines 21-49. *)
Definition validateForm `{Platform} : list (string * list chain_item) :=
  [ ("first_name", first_name_chain);
    ("last_name", last_name_chain);
    ("email", email_chain);
    ("message", message_chain) ].

(** [errors.isEmpty()]. *)
Definition errors_isEmpty (errs : list (string * validation_error)) : bool :=
  match errs with [] => true | _ => false end.

(** [errors.mapped()]: for each field its first error. *)
Definition mapped (errs : list (string * validation_error))
  : gmap string validation_error :=
  list_to_map errs.

(** ** JSON and the verifier's answer *)

Inductive json : Type :=
| JNull
| JBool (b : bool)
| JNum (x : float)
| JStr (s : string)
| JArr (l : list json)
| JObj (l : list (string * json)).

(** Of two members with one name, [JSON.parse] keeps the later. *)
Fixpoint member (k : string) (l : list (string * json)) : option json :=
  match l with
  | [] => None
  | (k', v) :: l' =>
      match member k l' with
      | Some x => Some x
      | None => if String.eqb k k' then Some v else None
      end
  end.

(** [d.k] for [d] other than [null] and [k] one of [success], [score] and
    [action], names that only a parsed object can hold. *)
Definition get_prop (d : json) (k : string) : option json :=
  match d with
  | JObj l => member k l
  | _ => None
  end.

(** [ToBoolean] of a property that may be [undefined]. *)
Definition json_truthy (v : option json) : bool :=
  match v with
  | None | Some JNull => false
  | Some (JBool b) => b
  | Some (JNum x) => negb (PrimFloat.eqb x 0 || PrimFloat.is_nan x)
  | Some (JStr s) => negb (String.eqb s "")
  | Some (JArr _) | Some (JObj _) => true
  end.

(** [String(v)] for a parsed value; [None] when it throws a [TypeError].
    An array joins its elements, [null] as the empty string; an object with
    a member [toString], which is not callable, cannot be converted. *)
Fixpoint json_string `{Platform} (v : json) : option string :=
  match v with
  | JNull => Some "null"
  | JBool true => Some "true"
  | JBool false => Some "false"
  | JNum x => Some (number_to_string x)
  | JStr s => Some s
  | JArr l =>
      join "," <$> mapM (fun x => match x with JNull => Some "" | _ => json_string x end) l
  | JObj l =>
      match member "toString" l with
      | Some _ => None
      | None => Some "[object Object]"
      end
  end.

(** [ToNumber] of a property that may be [undefined]; [None] when it throws
    a [TypeError].  An array or an object is first made a primitive: its
    inherited [valueOf] returns the object itself, so its [toString] decides. *)
Definition to_number `{Platform} (v : option json) : option float :=
  match v with
  | None => Some nan
  | Some JNull => Some 0%float
  | Some (JBool true) => Some 1%float
  | Some (JBool false) => Some 0%float
  | Some (JNum x) => Some x
  | Some (JStr s) => Some (string_to_number s)
  | Some (JArr l) => string_to_number <$> json_string (JArr l)
  | Some (JObj l) =>
      match member "toString" l with
      | Some _ => None
      | None => Some nan
      end
  end.

(** [v < 0.5]. *)
Definition below_half `{Platform} (v : option json) : option bool :=
  (fun x => PrimFloat.ltb x 0.5) <$> to_number v.

(** [v !== "submit"]. *)
Definition not_submit (v : option json) : bool :=
  match v with
  | Some (JStr s) => negb (String.eqb s "submit")
  | _ => true
  end.

(** ** Configuration, replies and outbound calls *)

(** [process.env]: each variable is a string or [undefined]. *)
Record config := {
  RECAPTCHA_SITE_KEY : option string;
  RECAPTCHA_SECRET_KEY : option string;
  MAIL_USERNAME : option string;
  MAIL_PASSWORD : option string;
  MAILCHIMP_API_KEY : option string;
  MAILCHIMP_LIST_ID : option string;
}.

(** [`${x}`] for an environment variable. *)
Definition env_string (x : option string) : string :=
  match x with
  | Some s => s
  | None => "undefined"
  end.

(** The view model handed to [res.render]. *)
Record render_context := {
  title : string;
  errors : gmap string validation_error;
  formData : body;
  successMessage : option string;
  siteKey : option string;
}.

(** What the handler sends: [res.status(s).render(view, ctx)] or
    [res.status(s).json({ error })]. *)
Inductive reply : Type :=
| Render (status : Z) (view : string) (ctx : render_context)
| Json (status : Z) (error : string).

(** One member of the list API's [addData]. *)
Record list_member := {
  email_address : option value;
  member_status : string;
  FNAME : option value;
  LNAME : option value;
}.

Inductive fetch_body : Type :=
| FormBody (s : string)
| JsonBody (members : list list_member).

Record fetch_request := {
  url : string;
  method : string;
  headers : list (string * string);
  payload : fetch_body;
}.

(** A [Response]: its [ok] flag, and what [response.json()] resolves to
    ([None] when the body does not parse and the promise rejects). *)
Record response := { ok : bool; parsed : option json }.

Record transport := { service : string; auth_user : option string; auth_pass : option string }.

Record mail_options := {
  from : option string;
  to : option string;
  subject : string;
  text : string;
}.

(** The three [fetch] calls of the handler, by the line they stand on. *)
Inductive call_site : Type := line_108 | line_115 | line_210.

(** The calls that leave the process. *)
Inductive event : Type :=
| EFetch (site : call_site) (rq : fetch_request)
| ESendMail (t : transport) (m : mail_options).

(** The exceptions of the route. *)
Inductive exn : Type := FetchFailed | ReferenceError | TypeError.

(** ** The handler as a program over its suspension points

    Each [await] is a constructor whose continuation takes what the awaited
    promise settles to ([None] or [false]: it rejected).  [AssignData] and
    [ReadData] are the write and the reads of [data], which line 121 assigns
    without declaring it: a property of the global object.  [Uncaught] is an
    exception that leaves the [async] handler: its promise rejects and the
    handler has sent no reply.  [NextError] is an exception that a middleware
    of [validateForm] passed to [next]: the handler does not run at all. *)
Inductive prog : Type :=
| Reply (r : reply)
| Uncaught (e : exn)
| NextError (e : exn)
| Fetch (site : call_site) (rq : fetch_request) (k : option response -> prog)
| ReadJson (r : response) (k : option json -> prog)
| SendMail (t : transport) (m : mail_options) (k : bool -> prog)
| AssignData (d : json) (k : prog)
| ReadData (k : option json -> prog).

Definition contact_view (status : Z) (env : config) (errs : gmap string validation_error)
    (form : body) (success : option string) : prog :=
  Reply (Render status "contact"
    {| title := "Contact Us"; errors := errs; formData := form;
       successMessage := success; siteKey := RECAPTCHA_SITE_KEY env |}).

Definition captcha_error (message : string) : gmap string validation_error :=
  {[ "captcha" := {| msg := message; value_of := None |} ]}.

Definition verifyUrl : string := "https://www.google.com/recaptcha/api/siteverify".

(** The request of lines 108-112, and again of lines 115-119; [None] when
    the template literal of its body throws on the token. *)
Definition verify_request (env : config) (token : option value) : option fetch_request :=
  t ← js_string_opt token;
  Some {| url := verifyUrl;
          method := "POST";
          headers := [("Content-Type", "application/x-www-form-urlencoded")];
          payload := FormBody ("secret=" +:+ env_string (RECAPTCHA_SECRET_KEY env)
                               +:+ "&response=" +:+ t) |}.

(** [x || fallback] inside a template literal. *)
Definition or_default (x : option value) (fallback : string) : option string :=
  if truthy x then js_string_opt x else Some fallback.

(** Lines 156-158, and the conversion of the result at line 171. *)
Definition selectedServices (service : option value) : option string :=
  match service with
  | Some (VArr l) => join ", " <$> mapM js_string l
  | _ => or_default service "None"
  end.

(** Line 159, and the conversion of the result at line 172. *)
Definition userReferral (referral : option value) : option string :=
  or_default referral "Not specified".

Definition nl : string := String "010"%char EmptyString.

(** The line break the template literal of lines 165-173 has after each
    field: the escape [\n], the end of the source line and its indentation. *)
Definition field_break : string := nl +:+ nl +:+ "    ".

(** Lines 156-174; the fields are those destructured from [req.body] at
    lines 80-89.  [None] when one of the conversions throws. *)
Definition mailOptions (env : config) (b : body) : option mail_options :=
  services ← selectedServices (b !! "service");
  referral ← userReferral (b !! "referral");
  first_name ← js_string_opt (b !! "first_name");
  last_name ← js_string_opt (b !! "last_name");
  email ← js_string_opt (b !! "email");
  phone ← or_default (b !! "phone") "Not provided";
  message ← js_string_opt (b !! "message");
  Some {| from := MAIL_USERNAME env;
          to := MAIL_USERNAME env;
          subject := "You have a new message from " +:+ first_name +:+ " " +:+ last_name;
          text := "You have received a new contact form submission:" +:+ field_break
            +:+ "First Name: " +:+ first_name +:+ field_break
            +:+ "Last Name: " +:+ last_name +:+ field_break
            +:+ "Email: " +:+ email +:+ field_break
            +:+ "Newsletter Subscription: "
            +:+ (if truthy (b !! "newsletter") then "Yes" else "No") +:+ field_break
            +:+ "Phone: " +:+ phone +:+ field_break
            +:+ "Services Interested In: " +:+ services +:+ field_break
            +:+ "How They Found Us: " +:+ referral +:+ field_break
            +:+ "Message: " +:+ message |}.

(** Lines 147-153. *)
Definition transporter (env : config) : transport :=
  {| service := "gmail"; auth_user := MAIL_USERNAME env; auth_pass := MAIL_PASSWORD env |}.

(** Lines 187-198: the members of [addData]. *)
Definition addData (b : body) : list list_member :=
  [ {| email_address := b !! "email"; member_status := "subscribed";
       FNAME := b !! "first_name"; LNAME := b !! "last_name" |} ].

(** Lines 200-213: the URL and the [options] of the call to the list API. *)
Definition subscribe_request (env : config) (b : body) : fetch_request :=
  {| url := "https://us6.api.mailchimp.com/3.0/lists/" +:+ env_string (MAILCHIMP_LIST_ID env);
     method := "POST";
     headers := [("Authorization", "apikey " +:+ env_string (MAILCHIMP_API_KEY env));
                 ("Content-Type", "application/json")];
     payload := JsonBody (addData b) |}.

(** [data.name] at line 136: a read of the global [data], then of its
    property.  An unassigned [data] is a [ReferenceError], a [null] one a
    [TypeError]; neither is inside a [try]. *)
Definition read_data_prop (name : string) (k : option json -> prog) : prog :=
  ReadData (fun data =>
    match data with
    | None => Uncaught ReferenceError
    | Some JNull => Uncaught TypeError
    | Some d => k (get_prop d name)
    end).

(** The handler of [app.post("/contact-us", validateForm, ...)], lines
    66-233: [req_body] is [req.body] as the middlewares left it and [errs]
    what [validationResult(req)] holds. *)
Definition handler `{Platform} (env : config) (req_body : body)
    (errs : list (string * validation_error)) : prog :=
  if negb (errors_isEmpty errs) then
    contact_view 400 env (mapped errs) req_body None
  else
  let token := req_body !! "g-recaptcha-response" in
  if negb (truthy token) then
    contact_view 400 env (captcha_error "Missing reCAPTCHA token. Please try again.")
      req_body None
  else
  let verification_failed :=
    contact_view 500 env (captcha_error "Error verifying reCAPTCHA. Please try again.")
      req_body None in
  let rejected :=
    contact_view 403 env (captcha_error "reCAPTCHA failed. Please try again.")
      req_body None in
  let succeeded :=
    contact_view 200 env ∅ ∅ (Some "Form submitted successfully!") in
  (* lines 108-112: the options of the call are built, then the call is
     awaited, all outside the try block *)
  match verify_request env token with
  | None => Uncaught TypeError
  | Some rq108 =>
  Fetch line_108 rq108 (fun r108 =>
  match r108 with
  | None => Uncaught FetchFailed
  | Some _ =>
  (* lines 114-134 *)
  match verify_request env token with
  | None => verification_failed
  | Some rq115 =>
  Fetch line_115 rq115 (fun r115 =>
  match r115 with
  | None => verification_failed
  | Some response =>
  ReadJson response (fun j =>
  match j with
  | None => verification_failed
  | Some d =>
  AssignData d (
  (* console.log("reCAPTCHA result:", data), still inside the try block *)
  ReadData (fun logged =>
  match logged with
  | None => verification_failed
  | Some _ =>
  (* line 136 *)
  read_data_prop "success" (fun success =>
  if negb (json_truthy success) then rejected else
  read_data_prop "score" (fun score =>
  match below_half score with
  | None => Uncaught TypeError
  | Some true => rejected
  | Some false =>
  read_data_prop "action" (fun action =>
  if not_submit action then rejected else
  (* lines 147-174 *)
  match mailOptions env req_body with
  | None => Uncaught TypeError
  | Some options =>
  (* lines 176-183 *)
  SendMail (transporter env) options (fun sent =>
  if negb sent then Reply (Json 500 "Failed to send email") else
  (* lines 186-222 *)
  if truthy (req_body !! "newsletter") then
    Fetch line_210 (subscribe_request env req_body) (fun r210 =>
    match r210 with
    | None => succeeded
    | Some mailchimpResponse => ReadJson mailchimpResponse (fun _ => succeeded)
    end)
  else succeeded)
  end)
  end))
  end))
  end)
  end)
  end
  end)
  end.

(** The route: the middlewares of [validateForm], then the handler on what
    they left. *)
Definition contact_us_post `{Platform} (env : config) (submitted : request) : prog :=
  match run_middlewares validateForm submitted with
  | None => NextError TypeError
  | Some (r, errs) => handler env (body_of r) errs
  end.

(** ** Running one request *)

(** What the network answers this request: the settlement of each [fetch]
    and whether [sendMail] resolves. *)
Record world := {
  fetch_outcome : call_site -> option response;
  sendMail_resolves : bool;
}.

(** How a request ends: with a reply of the handler, with an exception that
    left the handler uncaught, or with an exception that a middleware passed
    to [next], which Express answers itself. *)
Inductive outcome : Type :=
| Replied (r : reply)
| Threw (e : exn)
| PassedOn (e : exn).

(** The state of the global object: [data], or [None] before the first
    assignment. *)
Abbreviation globals := (option json).

(** A request alone in the process, from the globals [g]: its outcome, the
    globals it leaves and the outbound calls it made, in order. *)
Fixpoint run (w : world) (p : prog) (g : globals) : outcome * globals * list event :=
  match p with
  | Reply r => (Replied r, g, [])
  | Uncaught e => (Threw e, g, [])
  | NextError e => (PassedOn e, g, [])
  | Fetch site rq k =>
      let '(o, g', t) := run w (k (fetch_outcome w site)) g in
      (o, g', EFetch site rq :: t)
  | ReadJson r k => run w (k (parsed r)) g
  | SendMail tr m k =>
      let '(o, g', t) := run w (k (sendMail_resolves w)) g in
      (o, g', ESendMail tr m :: t)
  | AssignData d k => run w k (Some d)
  | ReadData k => run w (k g) g
  end.

Definition outcome_of (r : outcome * globals * list event) : outcome := r.1.1.
Definition globals_of (r : outcome * globals * list event) : globals := r.1.2.
Definition calls_of (r : outcome * globals * list event) : list event := r.2.

(** ** The paths of the handler *)

(** [data] was obtained: the request carries a token that the template
    literal of line 111 can convert, both verification calls resolved and the
    second one's body parsed to [d]. *)
Definition verifier_answers (req_body : body) (w : world) (d : json) : Prop :=
  truthy (req_body !! "g-recaptcha-response") = true ∧
  is_Some (js_string_opt (req_body !! "g-recaptcha-response")) ∧
  is_Some (fetch_outcome w line_108) ∧
  ∃ r, fetch_outcome w line_115 = Some r ∧ parsed r = Some d.

(** The condition of line 136 on the answer [d]; [None] when its evaluation
    throws a [TypeError]: [d] is [null], or its score cannot be converted. *)
Definition line_136 `{Platform} (d : json) : option bool :=
  match d with
  | JNull => None
  | _ =>
      if negb (json_truthy (get_prop d "success")) then Some true else
      match below_half (get_prop d "score") with
      | None => None
      | Some true => Some true
      | Some false => Some (not_submit (get_prop d "action"))
      end
  end.

(** The condition of line 136 is false: the handler goes on to the mail. *)
Definition accepted `{Platform} (d : json) : bool :=
  match line_136 d with
  | Some false => true
  | _ => false
  end.

(** The verification calls among the outbound calls. *)
Definition is_verify_call (e : event) : bool :=
  match e with
  | EFetch _ rq => String.eqb (url rq) verifyUrl
  | ESendMail _ _ => false
  end.

Definition is_mail (e : event) : bool :=
  match e with
  | ESendMail _ _ => true
  | EFetch _ _ => false
  end.

Definition is_subscription (e : event) : bool :=
  match e with
  | EFetch line_210 _ => true
  | _ => false
  end.

Definition count_calls (f : event -> bool) (t : list event) : nat := length (filter f t).

(** The two verification calls, of line 108 and of line 115; none when the
    token cannot be converted. *)
Definition verify_calls (env : config) (req_body : body) : list event :=
  match verify_request env (req_body !! "g-recaptcha-response") with
  | Some rq => [EFetch line_108 rq; EFetch line_115 rq]
  | None => []
  end.

(** The call of [sendMail]; none when [mailOptions] cannot be built. *)
Definition mail_calls (env : config) (req_body : body) : list event :=
  match mailOptions env req_body with
  | Some options => [ESendMail (transporter env) options]
  | None => []
  end.

Definition subscribe_calls (env : config) (req_body : body) : list event :=
  if truthy (req_body !! "newsletter")
  then [EFetch line_210 (subscribe_request env req_body)] else [].

(** The reply of lines 226-232. *)
Definition success_reply (env : config) : outcome :=
  Replied (Render 200 "contact"
    {| title := "Contact Us"; errors := ∅; formData := ∅;
       successMessage := Some "Form submitted successfully!";
       siteKey := RECAPTCHA_SITE_KEY env |}).

(** A reply that renders the form again with a [captcha] error and
    [req.body]. *)
Definition captcha_reply (status : Z) (message : string) (env : config) (req_body : body)
  : outcome :=
  Replied (Render status "contact"
    {| title := "Contact Us"; errors := captcha_error message;
       formData := req_body; successMessage := None;
       siteKey := RECAPTCHA_SITE_KEY env |}).

(** The world [w] with another answer of the list API. *)
Definition with_list_api (w : world) (a : option response) : world :=
  {| fetch_outcome site :=
       match site with
       | line_210 => a
       | _ => fetch_outcome w site
       end;
     sendMail_resolves := sendMail_resolves w |}.

(** ** Sample data, to evaluate the model *)

Fixpoint has_at (s : string) : bool :=
  match s with
  | String "@"%char _ => true
  | String _ s' => has_at s'
  | EmptyString => false
  end.

(** A stand-in for the library functions: an address is accepted when it
    holds an [@] and is normalized to itself. *)
Definition sample_platform : Platform :=
  {| normalizeEmail s := if has_at s then Some s else None;
     isEmail := has_at;
     string_to_number _ := nan;
     number_to_string _ := "NaN" |}.

Definition sample_env : config :=
  {| RECAPTCHA_SITE_KEY := Some "site"; RECAPTCHA_SECRET_KEY := Some "secret";
     MAIL_USERNAME := Some "owner@example.com"; MAIL_PASSWORD := Some "pw";
     MAILCHIMP_API_KEY := Some "key"; MAILCHIMP_LIST_ID := Some "list" |}.

(** Valid names, email and message, no token: scenario B. *)
Definition sample_fields : body :=
  {[ "first_name" := VStr "Lynn"; "last_name" := VStr "Poon";
     "email" := VStr "lynn@example.com"; "message" := VStr "Hello" ]}.

Definition sample_body : body :=
  <[ "g-recaptcha-response" := VStr "tok" ]> sample_fields.


(** Scenario A with an untrimmed first name and a last name that holds a
    quote. *)
Definition short_name_body : body :=
  <[ "first_name" := VStr " Al" ]> (<[ "last_name" := VStr "O'Neil" ]> sample_body).

(** A first name of two characters, one of them an ampersand. *)
Definition ampersand_body : body := <[ "first_name" := VStr "A&" ]> sample_body.

(** The newsletter box ticked. *)
Definition newsletter_body : body := <[ "newsletter" := VStr "on" ]> sample_body.

(** The form posted as a request: the fields in the body, nothing in the
    other locations. *)
Definition posting (b : body) : request :=
  {| body_of := b; cookies_of := ∅; headers_of := ∅; params_of := ∅; query_of := ∅ |}.

(** The same with a query string. *)
Definition posting_with_query (b q : body) : request :=
  {| body_of := b; cookies_of := ∅; headers_of := ∅; params_of := ∅; query_of := q |}.

Definition verdict (success : bool) (score : float) (action : string) : json :=
  JObj [("success", JBool success); ("score", JNum score); ("action", JStr action)].

Definition answering (d : json) (mail : bool) (list_api : option response) : world :=
  {| fetch_outcome site :=
       match site with
       | line_210 => list_api
       | _ => Some {| ok := true; parsed := Some d |}
       end;
     sendMail_resolves := mail |}.

(** Scenario D: the verifier accepts and the mail goes out. *)
Definition accepting_world : world := answering (verdict true 0.9 "submit") true None.

(** Scenario C: the verifier returns the score 0.3. *)
Definition low_score_world : world := answering (verdict true 0.3 "submit") true None.

(** Scenario F: the mail relay throws. *)
Definition mail_down_world : world := answering (verdict true 0.9 "submit") false None.

(** The verifier cannot be reached: every [fetch] rejects. *)
Definition offline_world : world :=
  {| fetch_outcome _ := None; sendMail_resolves := true |}.

(** Scenario E: the list API answers with an error. *)
Definition list_error : option response :=
  Some {| ok := false; parsed := Some (JObj [("title", JStr "Member Exists")]) |}.

(** ** Several requests in one process

    A task is a request's handler at one of its suspension points, with the
    answers the network has for it.  The tasks share the global object.  When
    an awaited promise settles the task runs, uninterrupted, to its next
    [await] or to its end. *)

(** The run from a continuation to the next suspension point. *)
Fixpoint settle (p : prog) (g : globals) : prog * globals :=
  match p with
  | AssignData d k => settle k (Some d)
  | ReadData k => settle (k g) g
  | _ => (p, g)
  end.

(** The awaited promise of a suspended task settles. *)
Definition resume (w : world) (p : prog) (g : globals) : prog * globals :=
  match p with
  | Fetch site _ k => settle (k (fetch_outcome w site)) g
  | ReadJson r k => settle (k (parsed r)) g
  | SendMail _ _ k => settle (k (sendMail_resolves w)) g
  | _ => (p, g)
  end.

Record process := { shared : globals; tasks : list (world * prog) }.

(** The promise task [i] awaits is the next to settle. *)
Definition step (s : process) (i : nat) : process :=
  match tasks s !! i with
  | Some (w, p) =>
      let '(p', g') := resume w p (shared s) in
      {| shared := g'; tasks := <[i := (w, p')]> (tasks s) |}
  | None => s
  end.

(** A schedule lists, in order, the tasks whose promises settle. *)
Definition execute (schedule : list nat) (s : process) : process :=
  foldl step s schedule.

(** The requests as they arrive: up to its first [await] the handler does
    not touch the global object. *)
Definition arrive `{Platform} (env : config) (g : globals)
    (requests : list (world * request)) : process :=
  {| shared := g;
     tasks := (λ '(w, r), (w, contact_us_post env r)) <$> requests |}.

(** The task is over, with this outcome. *)
Definition finished (p : prog) : option outcome :=
  match p with
  | Reply r => Some (Replied r)
  | Uncaught e => Some (Threw e)
  | NextError e => Some (PassedOn e)
  | _ => None
  end.

(** Every read of [data] follows, in the same uninterrupted run, an
    assignment of it; the flag says that the assignment has happened. *)
Inductive reads_own : bool -> prog -> Prop :=
| reads_own_reply a r : reads_own a (Reply r)
| reads_own_uncaught a e : reads_own a (Uncaught e)
| reads_own_next a e : reads_own a (NextError e)
| reads_own_fetch a site rq k :
    (∀ x, reads_own false (k x)) → reads_own a (Fetch site rq k)
| reads_own_json a r k :
    (∀ x, reads_own false (k x)) → reads_own a (ReadJson r k)
| reads_own_mail a t m k :
    (∀ x, reads_own false (k x)) → reads_own a (SendMail t m k)
| reads_own_assign a d k : reads_own true k → reads_own a (AssignData d k)
| reads_own_read k : (∀ x, reads_own true (k x)) → reads_own true (ReadData k).

(** At most [n] suspension points lie ahead. *)
Fixpoint awaits_within (n : nat) (p : prog) : Prop :=
  match p with
  | Reply _ | Uncaught _ | NextError _ => True
  | Fetch _ _ k =>
      match n with 0 => False | S n' => ∀ x, awaits_within n' (k x) end
  | ReadJson _ k =>
      match n with 0 => False | S n' => ∀ x, awaits_within n' (k x) end
  | SendMail _ _ k =>
      match n with 0 => False | S n' => ∀ x, awaits_within n' (k x) end
  | AssignData _ k => awaits_within n k
  | ReadData k => ∀ x, awaits_within n (k x)
  end.

(** The task waits for a promise or is over: it is not in the middle of a
    run. *)
Definition at_rest (p : prog) : Prop :=
  match p with
  | AssignData _ _ | ReadData _ => False
  | _ => True
  end.

(** How often the schedule has resumed task [i]. *)
Definition resumed (schedule : list nat) (i : nat) : nat :=
  length (filter (λ j, j = i) schedule).

(** What is known of a task that the schedule has resumed [c] times. *)
Definition task_ok `{Platform} (env : config) (w : world) (r : request) (c : nat) (p : prog)
  : Prop :=
  at_rest p ∧ reads_own false p ∧ awaits_within (6 - c) p ∧
  ∀ g, outcome_of (run w p g) = outcome_of (run w (contact_us_post env r) None).

(** ** Vocabulary of the properties of the validation *)

#[global] Instance location_eq_dec : EqDecision location.
Proof. solve_decision. Defined.

(** Two requests hold the same for a field, in every location. *)
Definition agree_on (field : string) (r r' : request) : Prop :=
  ∀ loc, req_at r loc !! field = req_at r' loc !! field.

(** Two runs of a chain end alike for a field: both throw, or both end with
    the same errors and requests that hold the same for the field. *)
Definition alike {E : Type} (field : string) (x y : option (request * list E)) : Prop :=
  match x, y with
  | None, None => True
  | Some (r, e), Some (r', e') => e = e' ∧ agree_on field r r'
  | _, _ => False
  end.

(** The errors that [validationResult] lists under one name. *)
Definition keyed (field : string) (errs : list (string * validation_error))
  : list validation_error :=
  (filter (fun p => p.1 = field) errs).*2.

(** The field is carried by the body alone: no other location has it. *)
Definition body_only (field : string) (r : request) : Prop :=
  ∀ loc, loc ≠ Body → req_at r loc !! field = None.

(** The fields whose chains escape. *)
Definition text_fields : list string := ["first_name"; "last_name"; "message"].

(** The characters that [escape] replaces, the ampersand apart: those its
    output never holds. *)
Definition markup_char (c : ascii) : bool :=
  match c with
  | "034"%char | "'"%char | "<"%char | ">"%char | "/"%char | "\"%char | "`"%char => true
  | _ => false
  end.

Fixpoint string_forall (p : ascii -> bool) (s : string) : bool :=
  match s with
  | String c s' => p c && string_forall p s'
  | EmptyString => true
  end.

Definition markup_free (s : string) : bool := string_forall (fun c => negb (markup_char c)) s.

(** A body value made of markup-free strings: one string, or an array of
    strings. *)
Definition value_markup_free (v : value) : bool :=
  match v with
  | VStr s => markup_free s
  | VArr l => forallb (fun x => match x with VStr s => markup_free s | _ => false end) l
  | _ => false
  end.

(** Nothing was submitted for a field, or only white space. *)
Definition blank (v : option value) : bool :=
  match v with
  | None => true
  | Some (VStr s) => string_forall is_space s
  | Some _ => false
  end.

(** The field was not submitted several times: its value is no array. *)
Definition single (v : option value) : Prop :=
  match v with
  | Some (VArr _) => False
  | _ => True
  end.

(** The items of a chain that only validate. *)
Definition validator_item (it : chain_item) : Prop :=
  match it with
  | Validate _ _ _ => True
  | Sanitize _ => False
  end.

(** ** Vocabulary of the further properties *)


(** The handler of [app.get("/contact-us", ...)], lines 56-64: [res.render]
    without [res.status] answers 200. *)
Definition contact_us_get (env : config) : reply :=
  Render 200 "contact"
    {| title := "Contact Us"; siteKey := RECAPTCHA_SITE_KEY env; errors := ∅;
       formData := ∅; successMessage := None |}.


(** The status of a reply. *)
Definition status_of (r : reply) : Z :=
  match r with
  | Render status _ _ => status
  | Json status _ => status
  end.

(** An answer of the verifier without a score. *)
Definition scoreless_answer : json :=
  JObj [("success", JBool true); ("action", JStr "submit")].

(** An answer whose score is an object with a member [toString], and whose
    action is not "submit". *)
Definition odd_score_answer : json :=
  JObj [("success", JBool true); ("score", JObj [("toString", JNum 1)]);
        ("action", JStr "Submit")].

(** The verifier answers with the JSON text [null]. *)
Definition null_world : world := answering JNull true None.

(** The first verification call resolves, the second is rejected. *)
Definition flaky_world : world :=
  {| fetch_outcome site :=
       match site with
       | line_108 => Some {| ok := true; parsed := Some (verdict true 0.9 "submit") |}
       | _ => None
       end;
     sendMail_resolves := true |}.

(** Nothing but the token was submitted. *)
Definition token_only_body : body := {[ "g-recaptcha-response" := VStr "tok" ]}.

(** [service[toString]=x]: the services as an object with a property
    [toString]. *)
Definition odd_service_body : body :=
  <[ "service" := VObj [("toString", VStr "x")] ]> sample_body.

(** [g-recaptcha-response[toString]=x]. *)
Definition odd_token_body : body :=
  <[ "g-recaptcha-response" := VObj [("toString", VStr "x")] ]> sample_fields.


(** What [isEmail] is given at the end of the email chain: the normalized
    address, or the string of the [false] that [normalizeEmail] returned. *)
Definition normalized_address `{Platform} (s : string) : string :=
  match normalizeEmail s with
  | Some e => e
  | None => "false"
  end.

(** * The validators *)

Section Validation.
Context `{Platform}.

(** ** Reading and writing a request *)

Lemma req_at_set_eq r loc field x : req_at (req_set r loc field x) loc !! field = Some x.
Proof. destruct loc; apply lookup_insert_eq. Qed.

Lemma req_at_set_ne_field r loc field x loc' k :
  k ≠ field → req_at (req_set r loc field x) loc' !! k = req_at r loc' !! k.
Proof.
  intros Hk. destruct loc, loc'; cbn [req_at req_set body_of cookies_of headers_of params_of query_of];
    try reflexivity; apply lookup_insert_ne; congruence.
Qed.

Lemma req_at_set_ne_loc r loc field x loc' k :
  loc' ≠ loc → req_at (req_set r loc field x) loc' !! k = req_at r loc' !! k.
Proof. intros Hl. destruct loc, loc'; try reflexivity; congruence. Qed.

Lemma agree_on_refl field r : agree_on field r r.
Proof. intros loc. reflexivity. Qed.

Lemma agree_on_sym field r r' : agree_on field r r' → agree_on field r' r.
Proof. intros Hr loc. symmetry. apply Hr. Qed.

Lemma agree_on_trans field r1 r2 r3 :
  agree_on field r1 r2 → agree_on field r2 r3 → agree_on field r1 r3.
Proof. intros H12 H23 loc. rewrite H12. apply H23. Qed.

Lemma instances_agree field r r' : agree_on field r r' → instances field r = instances field r'.
Proof.
  intros Hr. unfold instances.
  rewrite (list_filter_iff _ (λ loc, is_Some (req_at r' loc !! field))); [reflexivity|].
  intros loc. rewrite Hr. reflexivity.
Qed.

Lemma NoDup_locations : NoDup locations.
Proof. apply NoDup_ListNoDup. repeat constructor; simpl; intuition congruence. Qed.

Lemma NoDup_instances field r : NoDup (instances field r).
Proof.
  unfold instances.
  pose proof (NoDup_filter (λ loc, is_Some (req_at r loc !! field)) _ NoDup_locations) as Hnd.
  destruct (filter _ locations); [apply NoDup_singleton | exact Hnd].
Qed.

Lemma elem_of_locations loc : loc ∈ locations.
Proof. unfold locations. destruct loc; set_solver. Qed.

(** A location is an instance when the field has a value there, or when it
    is the body and no location has one. *)
Lemma elem_of_instances field r loc :
  loc ∈ instances field r ↔
  is_Some (req_at r loc !! field) ∨ (loc = Body ∧ ∀ loc', req_at r loc' !! field = None).
Proof.
  unfold instances.
  destruct (filter (λ loc, is_Some (req_at r loc !! field)) locations) as [|l0 l] eqn:Hf.
  - rewrite list_elem_of_singleton. split.
    + intros ->. right. split; [reflexivity|]. intros loc'.
      destruct (req_at r loc' !! field) eqn:Hv; [|reflexivity]. exfalso.
      eapply (filter_nil_not_elem_of _ _ loc' Hf); [rewrite Hv; eexists; reflexivity|].
      apply elem_of_locations.
    + intros [Hs | [-> _]]; [|reflexivity]. exfalso.
      eapply (filter_nil_not_elem_of _ _ loc Hf); [exact Hs | apply elem_of_locations].
  - rewrite <- Hf, list_elem_of_filter. split.
    + intros [Hs _]. left. exact Hs.
    + intros [Hs | [-> Hnone]]; [split; [exact Hs | apply elem_of_locations]|].
      exfalso. assert (Hl0 : l0 ∈ filter (λ loc, is_Some (req_at r loc !! field)) locations).
      { rewrite Hf. apply list_elem_of_here. }
      apply list_elem_of_filter in Hl0 as [[v Hv] _]. rewrite Hnone in Hv. discriminate.
Qed.

(** The body is the only instance of a field that no other location has. *)
Lemma instances_body_only field r : body_only field r → instances field r = [Body].
Proof.
  intros Hb. unfold instances, locations.
  rewrite !filter_cons, filter_nil.
  rewrite (Hb Cookies), (Hb Headers), (Hb Params), (Hb Query) by discriminate.
  cbn [req_at].
  repeat (case_decide as Hs; [try (destruct Hs; discriminate)|]); reflexivity.
Qed.

(** ** One item *)

(** What an item leaves is a value, or what it found. *)
Lemma run_item_value it v v' e :
  run_item it v = Some (v', e) → v' = v ∨ is_Some v'.
Proof.
  destruct it as [f|p n m]; cbn [run_item]; intros Hrun.
  - right. destruct v as [[s|b|l|l]|];
      repeat match type of Hrun with
             | (_ ≫= _) = Some _ => apply bind_Some in Hrun as (? & ? & Hrun)
             end; injection Hrun as <- _; eexists; reflexivity.
  - left. destruct v as [[s|b|l|l]|];
      repeat match type of Hrun with
             | (_ ≫= _) = Some _ => apply bind_Some in Hrun as (? & ? & Hrun)
             end; injection Hrun as <- _; reflexivity.
Qed.

Lemma run_item_at_Some it field loc r r1 e :
  run_item_at it field loc r = Some (r1, e) →
  run_item it (req_at r loc !! field) = Some (req_at r1 loc !! field, e) ∧
  ∀ loc' k, loc' ≠ loc ∨ k ≠ field → req_at r1 loc' !! k = req_at r loc' !! k.
Proof.
  unfold run_item_at. intros Hrun. apply bind_Some in Hrun as ([v e'] & Hitem & Hrun).
  injection Hrun as <- <-.
  destruct (run_item_value _ _ _ _ Hitem) as [-> | [x ->]].
  - destruct (req_at r loc !! field) as [x|] eqn:Hv.
    + rewrite req_at_set_eq. split; [exact Hitem|].
      intros loc' k [Hl | Hk];
        [apply req_at_set_ne_loc; exact Hl | apply req_at_set_ne_field; exact Hk].
    + rewrite Hv. split; [exact Hitem | reflexivity].
  - rewrite req_at_set_eq. split; [exact Hitem|].
    intros loc' k [Hl | Hk];
      [apply req_at_set_ne_loc; exact Hl | apply req_at_set_ne_field; exact Hk].
Qed.

Lemma run_item_at_None it field loc r :
  run_item_at it field loc r = None ↔ run_item it (req_at r loc !! field) = None.
Proof.
  unfold run_item_at. destruct (run_item it (req_at r loc !! field)) as [[v e]|];
    cbn; split; congruence.
Qed.

(** One item on several instances: each is handled on its own. *)
Lemma run_item_over_Some it field locs r r1 e :
  NoDup locs → run_item_over it field locs r = Some (r1, e) →
  (∀ loc, loc ∈ locs →
     ∃ e', run_item it (req_at r loc !! field) = Some (req_at r1 loc !! field, e')) ∧
  (∀ loc, loc ∉ locs → req_at r1 loc !! field = req_at r loc !! field) ∧
  (∀ loc k, k ≠ field → req_at r1 loc !! k = req_at r loc !! k).
Proof.
  revert r e. induction locs as [|l locs IH]; intros r e Hnd Hrun.
  - injection Hrun as <- <-. split; [|split]; [|reflexivity..].
    intros loc Hin. by apply elem_of_nil in Hin.
  - apply NoDup_cons in Hnd as [Hl Hnd]. cbn [run_item_over] in Hrun.
    apply bind_Some in Hrun as ([r0 e0] & Hat & Hrun).
    apply bind_Some in Hrun as ([r2 e2] & Hover & Hrun). injection Hrun as <- <-.
    apply run_item_at_Some in Hat as [Hitem Hframe].
    destruct (IH r0 e2 Hnd Hover) as (Hin & Hout & Hother).
    split; [|split].
    + intros loc [-> | Hloc]%elem_of_cons.
      * exists e0. rewrite (Hout l Hl). exact Hitem.
      * destruct (Hin loc Hloc) as [e' He']. exists e'.
        rewrite <- (Hframe loc field); [exact He'|]. left. intros ->. contradiction.
    + intros loc [Hne Hloc]%not_elem_of_cons.
      rewrite (Hout loc Hloc). apply Hframe. left. exact Hne.
    + intros loc k Hk. rewrite (Hother loc k Hk). apply Hframe. right. exact Hk.
Qed.
End Validation.

Section Chains.
Context `{Platform}.

(** ** The instances stay the same from one item to the next *)

Lemma run_item_over_instances it field r r1 e :
  run_item_over it field (instances field r) r = Some (r1, e) →
  instances field r1 = instances field r.
Proof.
  intros Hrun.
  destruct (run_item_over_Some _ _ _ _ _ _ (NoDup_instances field r) Hrun)
    as (Hin & Hout & _).
  assert (Hkeep : ∀ loc, is_Some (req_at r loc !! field) → is_Some (req_at r1 loc !! field)).
  { intros loc Hs. destruct (Hin loc) as [e' He']; [apply elem_of_instances; left; exact Hs|].
    destruct (run_item_value _ _ _ _ He') as [-> | Hv]; assumption. }
  assert (Hdec : (∀ loc, req_at r loc !! field = None) ∨ ¬ (∀ loc, req_at r loc !! field = None)).
  { destruct (decide (Forall (λ loc, ¬ is_Some (req_at r loc !! field)) locations))
      as [Hall | Hnot].
    - left. intros loc. apply eq_None_not_Some.
      exact (proj1 (Forall_forall _ _) Hall loc (elem_of_locations loc)).
    - right. intros Hall. apply Hnot. apply Forall_forall. intros loc _.
      rewrite Hall. apply is_Some_None. }
  destruct Hdec as [Hnone | Hsome].
  - (* no location has the field: the body is the instance *)
    assert (Hothers : body_only field r1).
    { intros loc Hloc. rewrite Hout; [apply Hnone|].
      rewrite elem_of_instances. intros [[v Hv] | [-> _]]; [|congruence].
      rewrite Hnone in Hv. discriminate. }
    rewrite (instances_body_only _ _ Hothers). symmetry. apply instances_body_only.
    intros loc _. apply Hnone.
  - (* some location has it: the instances are the locations that have it *)
    assert (Hsame : ∀ loc, is_Some (req_at r1 loc !! field) ↔ is_Some (req_at r loc !! field)).
    { intros loc. split; [|apply Hkeep]. intros Hs1.
      destruct (req_at r loc !! field) as [v|] eqn:Hv; [eexists; reflexivity|]. exfalso.
      rewrite Hout in Hs1; [rewrite Hv in Hs1; destruct Hs1; discriminate|].
      rewrite elem_of_instances. intros [[v Hv'] | [_ Hall]]; [congruence|].
      apply Hsome. exact Hall. }
    unfold instances.
    rewrite (list_filter_iff _ (λ loc, is_Some (req_at r loc !! field)) _ Hsame).
    reflexivity.
Qed.

(** ** Requests that hold the same for a field are validated alike *)

Lemma alike_refl {E} field (x : option (request * list E)) : alike field x x.
Proof. destruct x as [[r e]|]; [split; [reflexivity | apply agree_on_refl] | exact I]. Qed.

Lemma run_item_at_alike it field loc r r' :
  agree_on field r r' →
  alike field (run_item_at it field loc r) (run_item_at it field loc r').
Proof.
  intros Hr.
  destruct (run_item_at it field loc r) as [[r1 e1]|] eqn:H1,
           (run_item_at it field loc r') as [[r1' e1']|] eqn:H1'; cbn [alike].
  - apply run_item_at_Some in H1 as [Hi Hf], H1' as [Hi' Hf'].
    rewrite (Hr loc), Hi' in Hi. injection Hi as Hv <-. split; [reflexivity|].
    intros loc'. destruct (decide (loc' = loc)) as [->|Hne]; [symmetry; exact Hv|].
    rewrite Hf, Hf' by (left; exact Hne). apply Hr.
  - apply run_item_at_Some in H1 as [Hi _]. apply run_item_at_None in H1'.
    rewrite (Hr loc) in Hi. congruence.
  - apply run_item_at_Some in H1' as [Hi _]. apply run_item_at_None in H1.
    rewrite (Hr loc) in H1. congruence.
  - exact I.
Qed.

Lemma run_item_over_alike it field locs r r' :
  agree_on field r r' →
  alike field (run_item_over it field locs r) (run_item_over it field locs r').
Proof.
  revert r r'. induction locs as [|l locs IH]; intros r r' Hr; cbn [run_item_over].
  - split; [reflexivity | exact Hr].
  - pose proof (run_item_at_alike it field l r r' Hr) as Hat.
    destruct (run_item_at it field l r) as [[r1 e1]|],
             (run_item_at it field l r') as [[r1' e1']|]; cbn [alike] in Hat;
      try contradiction; cbn; [|exact I].
    destruct Hat as [<- Hr1]. specialize (IH r1 r1' Hr1).
    destruct (run_item_over it field locs r1) as [[r2 e2]|],
             (run_item_over it field locs r1') as [[r2' e2']|]; cbn [alike] in IH;
      try contradiction; cbn; [|exact I].
    destruct IH as [<- Hr2]. split; [reflexivity | exact Hr2].
Qed.

Lemma run_stack_alike items field r r' :
  agree_on field r r' →
  alike field (run_stack items field r) (run_stack items field r').
Proof.
  revert r r'. induction items as [|it items IH]; intros r r' Hr; cbn [run_stack].
  - split; [reflexivity | exact Hr].
  - rewrite <- (instances_agree field r r' Hr).
    pose proof (run_item_over_alike it field (instances field r) r r' Hr) as Hover.
    destruct (run_item_over it field (instances field r) r) as [[r1 e1]|],
             (run_item_over it field (instances field r) r') as [[r1' e1']|];
      cbn [alike] in Hover; try contradiction; cbn; [|exact I].
    destruct Hover as [<- Hr1]. specialize (IH r1 r1' Hr1).
    destruct (run_stack items field r1) as [[r2 e2]|],
             (run_stack items field r1') as [[r2' e2']|]; cbn [alike] in IH;
      try contradiction; cbn; [|exact I].
    destruct IH as [<- Hr2]. split; [reflexivity | exact Hr2].
Qed.

(** ** A chain leaves the other fields alone *)

Lemma run_stack_other items field r r1 e :
  run_stack items field r = Some (r1, e) →
  ∀ loc k, k ≠ field → req_at r1 loc !! k = req_at r loc !! k.
Proof.
  revert r e. induction items as [|it items IH]; intros r e Hrun loc k Hk.
  - injection Hrun as <- _. reflexivity.
  - cbn [run_stack] in Hrun. apply bind_Some in Hrun as ([r0 e0] & Hover & Hrun).
    apply bind_Some in Hrun as ([r2 e2] & Hstack & Hrun). injection Hrun as <- _.
    rewrite (IH r0 e2 Hstack loc k Hk).
    destruct (run_item_over_Some _ _ _ _ _ _ (NoDup_instances field r) Hover)
      as (_ & _ & Hother). apply Hother. exact Hk.
Qed.

(** ** What a chain makes of each instance *)

(** On an instance the items of the chain run one after the other, as
    [run_chain] has them; where the field has no instance nothing changes. *)
Lemma run_stack_instance items field r r1 e :
  run_stack items field r = Some (r1, e) →
  (∀ loc, loc ∈ instances field r →
     ∃ e', run_chain items (req_at r loc !! field) = Some (req_at r1 loc !! field, e')) ∧
  (∀ loc, loc ∉ instances field r → req_at r1 loc !! field = req_at r loc !! field).
Proof.
  revert r e. induction items as [|it items IH]; intros r e Hrun.
  - injection Hrun as <- _. split; [|reflexivity]. intros loc _. eexists. reflexivity.
  - cbn [run_stack] in Hrun. apply bind_Some in Hrun as ([r0 e0] & Hover & Hrun).
    apply bind_Some in Hrun as ([r2 e2] & Hstack & Hrun). injection Hrun as <- _.
    pose proof (run_item_over_instances _ _ _ _ _ Hover) as Hinst.
    destruct (run_item_over_Some _ _ _ _ _ _ (NoDup_instances field r) Hover)
      as (Hin & Hout & _).
    destruct (IH r0 e2 Hstack) as (Hin' & Hout'). rewrite Hinst in Hin', Hout'.
    split.
    + intros loc Hloc. destruct (Hin loc Hloc) as [e1 He1].
      destruct (Hin' loc Hloc) as [e' He']. exists (e1 ++ e')%list.
      cbn [run_chain]. rewrite He1. cbn. rewrite He'. reflexivity.
    + intros loc Hloc. rewrite (Hout' loc Hloc). apply Hout. exact Hloc.
Qed.

(** When the field has one instance, the errors are those of [run_chain]
    on it, and the chain throws when [run_chain] does. *)
Lemma run_stack_single items field loc r :
  instances field r = [loc] →
  (λ '(r1, e), (req_at r1 loc !! field, e)) <$> run_stack items field r
  = run_chain items (req_at r loc !! field).
Proof.
  revert r. induction items as [|it items IH]; intros r Hinst; [reflexivity|].
  cbn [run_stack run_chain]. rewrite Hinst. cbn [run_item_over].
  destruct (run_item_at it field loc r) as [[r0 e0]|] eqn:Hat.
  - pose proof Hat as Hat'. apply run_item_at_Some in Hat' as [Hitem _]. rewrite Hitem. cbn.
    assert (Hinst0 : instances field r0 = [loc]).
    { rewrite <- Hinst. apply (run_item_over_instances it field r r0 e0).
      rewrite Hinst. cbn [run_item_over]. rewrite Hat. cbn. rewrite app_nil_r. reflexivity. }
    rewrite <- (IH r0 Hinst0).
    destruct (run_stack items field r0) as [[r2 e2]|]; cbn; [|reflexivity].
    rewrite app_nil_r. reflexivity.
  - apply run_item_at_None in Hat. rewrite Hat. reflexivity.
Qed.

End Chains.

Section Middlewares.
Context `{Platform}.

(** ** The errors under one name *)

Lemma keyed_app field (e1 e2 : list (string * validation_error)) :
  keyed field (e1 ++ e2)%list = (keyed field e1 ++ keyed field e2)%list.
Proof. unfold keyed. rewrite filter_app, fmap_app. reflexivity. Qed.

Lemma keyed_pair_eq field (l : list validation_error) : keyed field (pair field <$> l) = l.
Proof.
  unfold keyed. induction l as [|e l IH]; [reflexivity|].
  rewrite fmap_cons, filter_cons_True by reflexivity. rewrite fmap_cons, IH. reflexivity.
Qed.

Lemma keyed_pair_ne field k (l : list validation_error) :
  k ≠ field → keyed field (pair k <$> l) = [].
Proof.
  intros Hk. unfold keyed. induction l as [|e l IH]; [reflexivity|].
  rewrite fmap_cons, filter_cons_False by exact Hk. exact IH.
Qed.

Lemma keyed_absent field (errs : list (string * validation_error)) :
  field ∉ errs.*1 → keyed field errs = [].
Proof.
  unfold keyed. induction errs as [|[k e] errs IH]; [reflexivity|].
  rewrite fmap_cons. intros [Hk Hrest]%not_elem_of_cons. cbn [fst] in Hk.
  rewrite filter_cons_False by (cbn; congruence). apply IH. exact Hrest.
Qed.

(** [mapped()] keeps, under each name, the first error listed under it. *)
Lemma mapped_keyed errs field : mapped errs !! field = head (keyed field errs).
Proof.
  unfold mapped, keyed. induction errs as [|[k e] errs IH]; [reflexivity|].
  rewrite list_to_map_cons. destruct (decide (k = field)) as [->|Hne].
  - rewrite lookup_insert_eq, filter_cons_True by reflexivity. reflexivity.
  - rewrite lookup_insert_ne by exact Hne. rewrite filter_cons_False by exact Hne. exact IH.
Qed.

Lemma keyed_nil_all (errs : list (string * validation_error)) :
  (∀ k, k ∈ errs.*1 → keyed k errs = []) → errs = [].
Proof.
  destruct errs as [|[k e] errs]; [reflexivity|]. intros Hall.
  specialize (Hall k ltac:(rewrite fmap_cons; apply list_elem_of_here)).
  unfold keyed in Hall. rewrite filter_cons_True in Hall by reflexivity. discriminate.
Qed.

(** ** The middlewares, one field at a time *)

Lemma check_Some field items r r1 e :
  check field items r = Some (r1, e) →
  ∃ e', run_stack items field r = Some (r1, e') ∧ e = pair field <$> e'.
Proof.
  unfold check. intros Hc. apply bind_Some in Hc as ([r0 e0] & Hs & Hc).
  injection Hc as <- <-. exists e0. split; [exact Hs | reflexivity].
Qed.

Lemma check_None field items r : check field items r = None ↔ run_stack items field r = None.
Proof. unfold check. destruct (run_stack items field r) as [[r1 e]|]; cbn; split; congruence. Qed.

(** A field no chain names is left as submitted, in every location, and has
    no error. *)
Lemma run_middlewares_other chains r r' errs k :
  run_middlewares chains r = Some (r', errs) → k ∉ chains.*1 →
  (∀ loc, req_at r' loc !! k = req_at r loc !! k) ∧ k ∉ errs.*1.
Proof.
  revert r errs. induction chains as [|[f items] rest IH]; intros r errs Hrun Hk.
  - injection Hrun as <- <-. split; [reflexivity | apply not_elem_of_nil].
  - rewrite fmap_cons in Hk. apply not_elem_of_cons in Hk as [Hne Hk]. cbn [fst] in Hne.
    cbn [run_middlewares] in Hrun. apply bind_Some in Hrun as ([r1 e1] & Hc & Hrun).
    apply bind_Some in Hrun as ([r2 e2] & Hrest & Hrun). injection Hrun as <- <-.
    apply check_Some in Hc as (e1' & Hstack & ->).
    destruct (IH r1 e2 Hrest Hk) as [Hsame Hkeys]. split.
    + intros loc. rewrite Hsame. apply (run_stack_other _ _ _ _ _ Hstack). exact Hne.
    + rewrite fmap_app, not_elem_of_app. split; [|exact Hkeys].
      rewrite <- list_fmap_compose. intros Hin. apply list_elem_of_fmap in Hin as (e & -> & _).
      apply Hne. reflexivity.
Qed.

(** A field one chain names goes through that chain as if the other chains
    were not there. *)
Lemma run_middlewares_field chains r r' errs field items :
  NoDup chains.*1 → (field, items) ∈ chains →
  run_middlewares chains r = Some (r', errs) →
  ∃ rf, run_stack items field r = Some (rf, keyed field errs) ∧ agree_on field r' rf.
Proof.
  revert r errs. induction chains as [|[f its] rest IH]; intros r errs Hnd Hin Hrun.
  { by apply elem_of_nil in Hin. }
  rewrite fmap_cons in Hnd. apply NoDup_cons in Hnd as [Hf Hnd]. cbn [fst] in Hf.
  cbn [run_middlewares] in Hrun. apply bind_Some in Hrun as ([r1 e1] & Hc & Hrun).
  apply bind_Some in Hrun as ([r2 e2] & Hrest & Hrun). injection Hrun as <- <-.
  apply check_Some in Hc as (e1' & Hstack & ->).
  apply elem_of_cons in Hin as [[= -> ->] | Hin].
  - destruct (run_middlewares_other _ _ _ _ _ Hrest Hf) as [Hsame Hkeys].
    exists r1. rewrite keyed_app, keyed_pair_eq, (keyed_absent _ _ Hkeys), app_nil_r.
    split; [exact Hstack | exact Hsame].
  - assert (Hne : f ≠ field).
    { intros ->. apply Hf. apply list_elem_of_fmap. exists (field, items).
      split; [reflexivity | exact Hin]. }
    destruct (IH r1 e2 Hnd Hin Hrest) as (rf & Hrf & Hagree).
    assert (Hr1 : agree_on field r1 r).
    { intros loc. apply (run_stack_other _ _ _ _ _ Hstack). congruence. }
    pose proof (run_stack_alike items field r1 r Hr1) as Halike.
    rewrite Hrf in Halike. destruct (run_stack items field r) as [[rf' ef']|];
      cbn [alike] in Halike; [|contradiction].
    destruct Halike as [<- Hrf']. exists rf'.
    rewrite keyed_app, (keyed_pair_ne _ _ _ Hne). cbn [app].
    split; [reflexivity | eapply agree_on_trans; eassumption].
Qed.

(** The middlewares end without an exception when each chain does. *)
Lemma run_middlewares_is_Some chains r :
  NoDup chains.*1 →
  (∀ field items, (field, items) ∈ chains → is_Some (run_stack items field r)) →
  is_Some (run_middlewares chains r).
Proof.
  revert r. induction chains as [|[f its] rest IH]; intros r Hnd Hall; [eexists; reflexivity|].
  rewrite fmap_cons in Hnd. apply NoDup_cons in Hnd as [Hf Hnd]. cbn [fst] in Hf.
  cbn [run_middlewares].
  destruct (Hall f its ltac:(apply list_elem_of_here)) as [[r1 e1] Hstack].
  unfold check. rewrite Hstack. cbn.
  destruct (IH r1 Hnd) as [[r2 e2] Hrest]; [|rewrite Hrest; eexists; reflexivity].
  intros field items Hin.
  assert (Hne : field ≠ f).
  { intros ->. apply Hf. apply list_elem_of_fmap. exists (f, items).
    split; [reflexivity | exact Hin]. }
  assert (Hr1 : agree_on field r r1).
  { intros loc. symmetry. apply (run_stack_other _ _ _ _ _ Hstack). exact Hne. }
  pose proof (run_stack_alike items field r r1 Hr1) as Halike.
  destruct (Hall field items ltac:(apply list_elem_of_further; exact Hin)) as [[rf ef] Hrf].
  rewrite Hrf in Halike. destruct (run_stack items field r1) as [[rf' ef']|];
    [eexists; reflexivity | contradiction].
Qed.

Lemma validateForm_fields :
  validateForm.*1 = ["first_name"; "last_name"; "email"; "message"].
Proof. reflexivity. Qed.

Lemma validateForm_NoDup : NoDup validateForm.*1.
Proof. rewrite validateForm_fields. apply NoDup_ListNoDup. repeat constructor; simpl; intuition congruence. Qed.

Lemma validateForm_chain field :
  field ∈ validateForm.*1 → ∃ items, (field, items) ∈ validateForm.
Proof.
  intros Hin. apply list_elem_of_fmap in Hin as ([f items] & -> & Hin). exists items. exact Hin.
Qed.

Lemma first_name_in_validateForm : ("first_name", first_name_chain) ∈ validateForm.
Proof. apply (list_elem_of_lookup_2 _ 0). reflexivity. Qed.

Lemma last_name_in_validateForm : ("last_name", last_name_chain) ∈ validateForm.
Proof. apply (list_elem_of_lookup_2 _ 1). reflexivity. Qed.

Lemma email_in_validateForm : ("email", email_chain) ∈ validateForm.
Proof. apply (list_elem_of_lookup_2 _ 2). reflexivity. Qed.

Lemma message_in_validateForm : ("message", message_chain) ∈ validateForm.
Proof. apply (list_elem_of_lookup_2 _ 3). reflexivity. Qed.

(** What the middlewares of [validateForm] make of one of their fields. *)
Lemma validated_field r r' errs field items :
  (field, items) ∈ validateForm →
  run_middlewares validateForm r = Some (r', errs) →
  ∃ rf, run_stack items field r = Some (rf, keyed field errs) ∧ agree_on field r' rf.
Proof. apply run_middlewares_field, validateForm_NoDup. Qed.

(** The same for a field that the body alone carries: the chain runs on
    [req.body[field]]. *)
Lemma validated_body_field r r' errs field items :
  (field, items) ∈ validateForm → body_only field r →
  run_middlewares validateForm r = Some (r', errs) →
  run_chain items (body_of r !! field) = Some (body_of r' !! field, keyed field errs).
Proof.
  intros Hin Hbody Hrun. destruct (validated_field _ _ _ _ _ Hin Hrun) as (rf & Hrf & Hagree).
  change (body_of r) with (req_at r Body). change (body_of r') with (req_at r' Body).
  rewrite <- (run_stack_single items field Body r (instances_body_only _ _ Hbody)).
  rewrite Hrf. cbn [fmap option_fmap option_map]. rewrite (Hagree Body). reflexivity.
Qed.

(** A field that [validateForm] does not name is left as submitted and has
    no error. *)
Lemma validated_other r r' errs k :
  k ∉ ["first_name"; "last_name"; "email"; "message"] →
  run_middlewares validateForm r = Some (r', errs) →
  (∀ loc, req_at r' loc !! k = req_at r loc !! k) ∧ mapped errs !! k = None.
Proof.
  intros Hk Hrun. rewrite <- validateForm_fields in Hk.
  destruct (run_middlewares_other _ _ _ _ _ Hrun Hk) as [Hsame Hkeys].
  split; [exact Hsame|]. rewrite mapped_keyed, (keyed_absent _ _ Hkeys). reflexivity.
Qed.

(** The token and the newsletter box reach the handler as submitted. *)
Lemma token_untouched r r' errs :
  run_middlewares validateForm r = Some (r', errs) →
  body_of r' !! "g-recaptcha-response" = body_of r !! "g-recaptcha-response".
Proof.
  intros Hrun. refine (proj1 (validated_other r r' errs _ _ Hrun) Body).
  rewrite !not_elem_of_cons. repeat split; try discriminate. apply not_elem_of_nil.
Qed.

(** The validation result is empty when no chain found an error. *)
Lemma validated_no_error r r' errs :
  run_middlewares validateForm r = Some (r', errs) →
  errs = [] ↔ keyed "first_name" errs = [] ∧ keyed "last_name" errs = [] ∧
              keyed "email" errs = [] ∧ keyed "message" errs = [].
Proof.
  intros Hrun. split; [intros ->; repeat split; reflexivity|].
  intros (H1 & H2 & H3 & H4). apply keyed_nil_all. intros k Hk.
  destruct (decide (k ∈ validateForm.*1)) as [Hin | Hout].
  - rewrite validateForm_fields, !elem_of_cons in Hin.
    destruct Hin as [->|[->|[->|[->|Hnil]]]]; try assumption. by apply elem_of_nil in Hnil.
  - destruct (run_middlewares_other _ _ _ _ _ Hrun Hout) as [_ Hkeys]. contradiction.
Qed.

End Middlewares.

Section Sanitizers.
Context `{Platform}.

Lemma string_forall_app p s1 s2 :
  string_forall p (s1 +:+ s2) = string_forall p s1 && string_forall p s2.
Proof. induction s1 as [|c s1 IH]; simpl; [reflexivity|]. rewrite IH. apply andb_assoc. Qed.

Lemma escape_char_markup_free c : markup_free (escape_char c) = true.
Proof. destruct c as [[] [] [] [] [] [] [] []]; reflexivity. Qed.

(** The output of [escape] holds none of the characters it replaces, the
    ampersand of its own entities apart. *)
Lemma escape_markup_free s : markup_free (escape s) = true.
Proof.
  induction s as [|c s IH]; [reflexivity|].
  pose proof (escape_char_markup_free c) as Hc.
  cbn [escape]. unfold markup_free in *. rewrite string_forall_app, IH, Hc. reflexivity.
Qed.

Lemma length_append s1 s2 :
  String.length (s1 +:+ s2) = (String.length s1 + String.length s2)%nat.
Proof. induction s1 as [|c s1 IH]; simpl; [reflexivity|]. rewrite IH. reflexivity. Qed.

Lemma escape_char_length c : (1 ≤ String.length (escape_char c))%nat.
Proof. destruct c as [[] [] [] [] [] [] [] []]; simpl; lia. Qed.

(** [escape] never shortens a string. *)
Lemma escape_length s : (String.length s ≤ String.length (escape s))%nat.
Proof.
  induction s as [|c s IH]; [reflexivity|].
  cbn [escape]. rewrite length_append. pose proof (escape_char_length c). simpl. lia.
Qed.

Lemma trim_blank s : string_forall is_space s = true → trim s = "".
Proof.
  unfold trim. induction s as [|c s IH]; [reflexivity|]. cbn [string_forall ltrim].
  intros [Hc Hs]%andb_prop. rewrite Hc. apply IH. exact Hs.
Qed.

Lemma isLength_escape n s : (n ≤ String.length s)%nat → isLength n (escape s) = true.
Proof.
  intros Hn. unfold isLength. apply Nat.leb_le. pose proof (escape_length s). lia.
Qed.

Lemma isEmpty_false t : isEmpty t = false ↔ t ≠ "".
Proof.
  unfold isEmpty. rewrite Nat.eqb_neq. destruct t; simpl; split; congruence.
Qed.

Lemma isEmpty_escape s : s ≠ "" → isEmpty (escape s) = false.
Proof.
  intros Hs. unfold isEmpty. apply Nat.eqb_neq. pose proof (escape_length s).
  destruct s; [congruence|]. simpl in *. lia.
Qed.

Lemma isLength_nonempty n t : isLength (S n) t = true → isEmpty t = false.
Proof.
  unfold isLength, isEmpty. intros Hn%Nat.leb_le. apply Nat.eqb_neq. lia.
Qed.

(** ** The chains on one instance *)

Lemma to_string_VStr s : to_string (Some (VStr s)) = Some s.
Proof. reflexivity. Qed.

(** A sanitizer on a value that is no array. *)
Lemma run_sanitizer_single f v s :
  single v → to_string v = Some s → run_item (Sanitize f) v = Some (Some (f s), []).
Proof.
  intros Hv Hs. destruct v as [[x|b|l|l]|]; try contradiction;
    cbn [run_item]; rewrite Hs; reflexivity.
Qed.

Lemma run_sanitizer_throws f v :
  single v → to_string v = None → run_item (Sanitize f) v = None.
Proof.
  intros Hv Hs. destruct v as [[x|b|l|l]|]; try contradiction;
    cbn [run_item]; rewrite Hs; reflexivity.
Qed.

(** A validator on a string. *)
Lemma run_validator_string p negated message s :
  run_item (Validate p negated message) (Some (VStr s))
  = Some (Some (VStr s),
          if Bool.eqb (p s) negated
          then [{| msg := message; value_of := Some (VStr s) |}] else []).
Proof. reflexivity. Qed.

(** A chain of [trim], [escape], [notEmpty] and [isLength] on a value that
    is no array. *)
Lemma text_chain_single v s required n short :
  single v → to_string v = Some s →
  let t := escape (trim s) in
  run_chain [ Sanitize (fun s => VStr (trim s)); Sanitize (fun s => VStr (escape s));
              Validate isEmpty true required; Validate (isLength n) false short ] v
  = Some (Some (VStr t),
     ((if isEmpty t then [{| msg := required; value_of := Some (VStr t) |}] else [])
      ++ (if isLength n t then [] else [{| msg := short; value_of := Some (VStr t) |}]))%list).
Proof.
  intros Hv Hs t. subst t. cbn [run_chain].
  rewrite (run_sanitizer_single _ v s Hv Hs). cbn [mbind option_bind].
  rewrite (run_sanitizer_single _ (Some (VStr (trim s))) (trim s) I eq_refl).
  cbn [run_item to_string js_string mbind option_bind].
  destruct (isEmpty (escape (trim s))), (isLength n (escape (trim s))); reflexivity.
Qed.

Lemma message_chain_single v s required :
  single v → to_string v = Some s →
  let t := escape (trim s) in
  run_chain [ Sanitize (fun s => VStr (trim s)); Sanitize (fun s => VStr (escape s));
              Validate isEmpty true required ] v
  = Some (Some (VStr t),
          if isEmpty t then [{| msg := required; value_of := Some (VStr t) |}] else []).
Proof.
  intros Hv Hs t. subst t. cbn [run_chain].
  rewrite (run_sanitizer_single _ v s Hv Hs). cbn [mbind option_bind].
  rewrite (run_sanitizer_single _ (Some (VStr (trim s))) (trim s) I eq_refl).
  cbn [run_item to_string js_string mbind option_bind].
  destruct (isEmpty (escape (trim s))); reflexivity.
Qed.

Lemma to_string_normalizeEmail_value s :
  is_Some (to_string (Some (normalizeEmail_value s))).
Proof. unfold normalizeEmail_value. destruct (normalizeEmail s); eexists; reflexivity. Qed.

Lemma email_chain_single v s :
  single v → to_string v = Some s →
  ∃ a, to_string (Some (normalizeEmail_value (trim s))) = Some a ∧
       run_chain email_chain v
       = Some (Some (normalizeEmail_value (trim s)),
               if isEmail a then []
               else [{| msg := "Email is not valid";
                        value_of := Some (normalizeEmail_value (trim s)) |}]).
Proof.
  intros Hv Hs. unfold email_chain. cbn [run_chain].
  rewrite (run_sanitizer_single _ v s Hv Hs). cbn [mbind option_bind].
  rewrite (run_sanitizer_single _ (Some (VStr (trim s))) (trim s) I eq_refl).
  cbn [mbind option_bind].
  unfold normalizeEmail_value. destruct (normalizeEmail (trim s)) as [a|].
  - exists a. split; [reflexivity|]. cbn [run_item to_string js_string mbind option_bind].
    destruct (isEmail a); reflexivity.
  - exists "false". split; [reflexivity|]. cbn [run_item to_string js_string mbind option_bind].
    destruct (isEmail "false"); reflexivity.
Qed.

(** A chain that begins with a sanitizer throws on a value that is no
    array and that [toString] cannot convert. *)
Lemma chain_throws f items v :
  single v → to_string v = None → run_chain (Sanitize f :: items) v = None.
Proof. intros Hv Hs. cbn [run_chain]. rewrite (run_sanitizer_throws f v Hv Hs). reflexivity. Qed.

(** Validators leave the value as it is. *)
Lemma run_validator_value p n m v v' e :
  run_item (Validate p n m) v = Some (v', e) → v' = v.
Proof.
  cbn [run_item]. intros Hitem. destruct v as [[x|b|l|l]|];
    repeat match type of Hitem with
           | (_ ≫= _) = Some _ => apply bind_Some in Hitem as (? & ? & Hitem)
           end; injection Hitem as <- _; reflexivity.
Qed.

Lemma validators_keep_value items v v' e :
  Forall validator_item items → run_chain items v = Some (v', e) → v' = v.
Proof.
  intros Hitems. revert v e. induction Hitems as [|it items Hit _ IH]; intros v e Hrun.
  - injection Hrun as <- _. reflexivity.
  - destruct it as [g|p n m]; [contradiction|]. cbn [run_chain] in Hrun.
    apply bind_Some in Hrun as ([v1 e1] & Hitem & Hrun).
    apply bind_Some in Hrun as ([v2 e2] & Hrest & Hrun). injection Hrun as <- _.
    rewrite (IH _ _ Hrest). exact (run_validator_value _ _ _ _ _ _ Hitem).
Qed.

Lemma mapM_sanitized (f : string → value) (l : list value) l' :
  mapM (λ x, f <$> to_string (Some x)) l = Some l' → Forall (λ y, ∃ s, y = f s) l'.
Proof.
  intros Hm%mapM_Some_1. induction Hm as [|x y l l' Hxy _ IH]; [constructor|].
  constructor; [|exact IH]. apply fmap_Some in Hxy as (s & _ & ->). exists s. reflexivity.
Qed.

Lemma forallb_escaped (l : list value) :
  Forall (λ y, ∃ s, y = VStr (escape s)) l →
  forallb (λ x, match x with VStr s => markup_free s | _ => false end) l = true.
Proof.
  induction 1 as [|y l [s ->] _ IH]; [reflexivity|]. cbn [forallb].
  rewrite escape_markup_free, IH. reflexivity.
Qed.

(** What [escape] leaves as a sanitizer: a string it made, or an array of
    such. *)
Lemma run_escape_value v v' e :
  run_item (Sanitize (fun s => VStr (escape s))) v = Some (v', e) →
  ∃ x, v' = Some x ∧ value_markup_free x = true.
Proof.
  cbn [run_item]. intros Hrun. destruct v as [[s|b|l|l]|];
    apply bind_Some in Hrun as (y & Hy & Hrun); injection Hrun as <- _;
    eexists; (split; [reflexivity|]); cbn [value_markup_free];
    try apply escape_markup_free.
  apply forallb_escaped. exact (mapM_sanitized _ _ _ Hy).
Qed.

(** A chain that trims, escapes and then only validates leaves an output of
    [escape], or an array of such. *)
Lemma escaping_chain_value items v v' e :
  Forall validator_item items →
  run_chain (Sanitize (fun s => VStr (trim s)) :: Sanitize (fun s => VStr (escape s))
               :: items) v = Some (v', e) →
  ∃ x, v' = Some x ∧ value_markup_free x = true.
Proof.
  intros Hitems Hrun. cbn [run_chain] in Hrun.
  apply bind_Some in Hrun as ([v1 e1] & _ & Hrun).
  apply bind_Some in Hrun as ([v4 e4] & Hrest & Hrun). injection Hrun as <- _.
  apply bind_Some in Hrest as ([v2 e2] & Hescape & Hrest).
  apply bind_Some in Hrest as ([v3 e3] & Hvalidate & Hrest). injection Hrest as <- _.
  rewrite (validators_keep_value _ _ _ _ Hitems Hvalidate).
  exact (run_escape_value _ _ _ Hescape).
Qed.

End Sanitizers.

Section Route.
Context `{Platform}.

(** Where [req.body] has the field, the chain runs on it, whatever the
    other locations hold. *)
Lemma validated_body_instance r r' errs field items :
  (field, items) ∈ validateForm → is_Some (body_of r !! field) →
  run_middlewares validateForm r = Some (r', errs) →
  ∃ e', run_chain items (body_of r !! field) = Some (body_of r' !! field, e').
Proof.
  intros Hin Hbody Hrun. destruct (validated_field _ _ _ _ _ Hin Hrun) as (rf & Hrf & Hagree).
  destruct (run_stack_instance _ _ _ _ _ Hrf) as [Hinst _].
  destruct (Hinst Body) as [e' He']; [apply elem_of_instances; left; exact Hbody|].
  exists e'. change (body_of r') with (req_at r' Body). rewrite (Hagree Body). exact He'.
Qed.

(** Where [req.body] lacks a field that another location has, the chain
    leaves the body alone. *)
Lemma validated_body_skipped r r' errs field items loc :
  (field, items) ∈ validateForm → body_of r !! field = None →
  is_Some (req_at r loc !! field) →
  run_middlewares validateForm r = Some (r', errs) →
  body_of r' !! field = None.
Proof.
  intros Hin Hbody Hloc Hrun.
  destruct (validated_field _ _ _ _ _ Hin Hrun) as (rf & Hrf & Hagree).
  destruct (run_stack_instance _ _ _ _ _ Hrf) as [_ Hout].
  change (body_of r') with (req_at r' Body). rewrite (Hagree Body), Hout; [exact Hbody|].
  rewrite elem_of_instances. intros [[v Hv] | [_ Hnone]].
  - cbn [req_at] in Hv. congruence.
  - rewrite Hnone in Hloc. destruct Hloc; discriminate.
Qed.

(** A text field that the body holds as one string comes back trimmed and
    escaped. *)
Lemma sanitized_text_field r r' errs field s :
  field ∈ text_fields → body_of r !! field = Some (VStr s) →
  run_middlewares validateForm r = Some (r', errs) →
  body_of r' !! field = Some (VStr (escape (trim s))).
Proof.
  intros Hf Hb Hrun. unfold text_fields in Hf. rewrite !elem_of_cons in Hf.
  assert (Hs : is_Some (body_of r !! field)) by (rewrite Hb; eexists; reflexivity).
  destruct Hf as [->|[->|[->|Hnil]]]; [| | |by apply elem_of_nil in Hnil].
  - destruct (validated_body_instance _ _ _ _ _ first_name_in_validateForm Hs Hrun)
      as [e' He'].
    rewrite Hb in He'. unfold first_name_chain in He'.
    rewrite (text_chain_single (Some (VStr s)) s _ _ _ I eq_refl) in He'. cbn zeta in He'.
    injection He' as <- _. reflexivity.
  - destruct (validated_body_instance _ _ _ _ _ last_name_in_validateForm Hs Hrun)
      as [e' He'].
    rewrite Hb in He'. unfold last_name_chain in He'.
    rewrite (text_chain_single (Some (VStr s)) s _ _ _ I eq_refl) in He'. cbn zeta in He'.
    injection He' as <- _. reflexivity.
  - destruct (validated_body_instance _ _ _ _ _ message_in_validateForm Hs Hrun)
      as [e' He'].
    rewrite Hb in He'. unfold message_chain in He'.
    rewrite (message_chain_single (Some (VStr s)) s _ I eq_refl) in He'. cbn zeta in He'.
    injection He' as <- _. reflexivity.
Qed.

Lemma sanitized_email r r' errs s :
  body_of r !! "email" = Some (VStr s) →
  run_middlewares validateForm r = Some (r', errs) →
  body_of r' !! "email" = Some (normalizeEmail_value (trim s)).
Proof.
  intros Hb Hrun.
  assert (Hs : is_Some (body_of r !! "email")) by (rewrite Hb; eexists; reflexivity).
  destruct (validated_body_instance _ _ _ _ _ email_in_validateForm Hs Hrun) as [e' He'].
  rewrite Hb in He'.
  destruct (email_chain_single (Some (VStr s)) s I eq_refl) as (a & _ & Hchain).
  rewrite Hchain in He'. injection He' as <- _. reflexivity.
Qed.

(** The route on a request whose middlewares ended without an exception. *)
Lemma route_validated env r r' errs :
  run_middlewares validateForm r = Some (r', errs) →
  contact_us_post env r = handler env (body_of r') errs.
Proof. intros Hrun. unfold contact_us_post. rewrite Hrun. reflexivity. Qed.

Lemma route_throws env r :
  run_middlewares validateForm r = None → contact_us_post env r = NextError TypeError.
Proof. intros Hrun. unfold contact_us_post. rewrite Hrun. reflexivity. Qed.

End Route.

(** * The handler *)

Section Handler.
Context `{Platform} (env : config).

#[local] Arguments mailOptions : simpl never.
#[local] Arguments verify_request : simpl never.
#[local] Arguments subscribe_request : simpl never.
#[local] Arguments transporter : simpl never.
#[local] Arguments captcha_error : simpl never.
#[local] Arguments mapped : simpl never.
#[local] Arguments below_half : simpl never.

(** *** The paths of the handler, one lemma each *)

Lemma run_invalid (req_body : body) errs w g :
  errs ≠ [] →
  run w (handler env req_body errs) g =
    (Replied (Render 400 "contact"
       {| title := "Contact Us"; errors := mapped errs;
          formData := req_body; successMessage := None;
          siteKey := RECAPTCHA_SITE_KEY env |}), g, []).
Proof. intros Herr. unfold handler. destruct errs; [congruence | reflexivity]. Qed.

Lemma run_missing_token (req_body : body) w g :
  truthy (req_body !! "g-recaptcha-response") = false →
  run w (handler env req_body []) g =
    (captcha_reply 400 "Missing reCAPTCHA token. Please try again." env req_body, g, []).
Proof. intros Ht. unfold handler. simpl. rewrite Ht. reflexivity. Qed.

Lemma verify_request_is_Some token :
  is_Some (verify_request env token) ↔ is_Some (js_string_opt token).
Proof.
  unfold verify_request. destruct (js_string_opt token) as [t|]; cbn;
    split; intros [x Hx]; try discriminate; eexists; reflexivity.
Qed.

Lemma verify_request_None token :
  verify_request env token = None ↔ js_string_opt token = None.
Proof.
  unfold verify_request. destruct (js_string_opt token) as [t|]; cbn; split; congruence.
Qed.

(** The template literal of line 111 throws on the token. *)
Lemma run_token_throws (req_body : body) w g :
  truthy (req_body !! "g-recaptcha-response") = true →
  js_string_opt (req_body !! "g-recaptcha-response") = None →
  run w (handler env req_body []) g = (Threw TypeError, g, []).
Proof.
  intros Ht Hs. apply verify_request_None in Hs. unfold handler. simpl. rewrite Ht. simpl.
  rewrite Hs. reflexivity.
Qed.

Lemma run_fetch_108_fails (req_body : body) w g rq :
  truthy (req_body !! "g-recaptcha-response") = true →
  verify_request env (req_body !! "g-recaptcha-response") = Some rq →
  fetch_outcome w line_108 = None →
  run w (handler env req_body []) g = (Threw FetchFailed, g, [EFetch line_108 rq]).
Proof.
  intros Ht Hrq H108. unfold handler. simpl. rewrite Ht. simpl. rewrite Hrq. simpl.
  rewrite H108. reflexivity.
Qed.

Lemma run_verification_fails (req_body : body) w g :
  truthy (req_body !! "g-recaptcha-response") = true →
  is_Some (js_string_opt (req_body !! "g-recaptcha-response")) →
  is_Some (fetch_outcome w line_108) →
  fetch_outcome w line_115 ≫= parsed = None →
  run w (handler env req_body []) g =
    (captcha_reply 500 "Error verifying reCAPTCHA. Please try again." env req_body, g,
     verify_calls env req_body).
Proof.
  intros Ht [rq Hrq]%verify_request_is_Some [r108 H108] H115.
  unfold handler, verify_calls. simpl. rewrite Ht. simpl. rewrite Hrq. simpl.
  rewrite H108. simpl.
  destruct (fetch_outcome w line_115) as [r|]; simpl in *; [rewrite H115|]; reflexivity.
Qed.

Ltac reach_data Hva :=
  let Ht := fresh "Ht" in let Hrq := fresh "Hrq" in let H108 := fresh "H108" in
  let H115 := fresh "H115" in let Hd := fresh "Hd" in
  destruct Hva as (Ht & [? Hrq]%verify_request_is_Some & [? H108] & ? & H115 & Hd);
  unfold handler, verify_calls; simpl; rewrite Ht; simpl; rewrite Hrq; simpl;
  rewrite H108; simpl; rewrite H115; simpl; rewrite Hd; simpl.

Ltac line_136_cases H136 :=
  repeat first
    [ discriminate H136 | reflexivity
    | match goal with
      | |- context [json_truthy ?x] => destruct (json_truthy x); simpl in *
      | |- context [below_half ?x] => destruct (below_half x) as [[|]|]; simpl in *
      | |- context [not_submit ?x] => destruct (not_submit x); simpl in *
      end ].

(** The condition of line 136 throws: on a [null] answer, or on a score
    that cannot be converted. *)
Lemma run_throws_136 (req_body : body) w g d :
  verifier_answers req_body w d → line_136 d = None →
  run w (handler env req_body []) g = (Threw TypeError, Some d, verify_calls env req_body).
Proof.
  intros Hva H136. reach_data Hva. unfold line_136 in H136.
  destruct d; simpl in *; line_136_cases H136.
Qed.

Lemma run_rejected (req_body : body) w g d :
  verifier_answers req_body w d → line_136 d = Some true →
  run w (handler env req_body []) g =
    (captcha_reply 403 "reCAPTCHA failed. Please try again." env req_body, Some d,
     verify_calls env req_body).
Proof.
  intros Hva H136. reach_data Hva. unfold line_136 in H136.
  destruct d; simpl in *; line_136_cases H136.
Qed.

Lemma run_accepted (req_body : body) w g d :
  verifier_answers req_body w d → accepted d = true →
  run w (handler env req_body []) g =
    match mailOptions env req_body with
    | None => (Threw TypeError, Some d, verify_calls env req_body)
    | Some options =>
        if sendMail_resolves w
        then (success_reply env, Some d,
              (verify_calls env req_body ++ ESendMail (transporter env) options
                 :: subscribe_calls env req_body)%list)
        else (Replied (Json 500 "Failed to send email"), Some d,
              (verify_calls env req_body ++ [ESendMail (transporter env) options])%list)
    end.
Proof.
  intros Hva Hacc. unfold subscribe_calls. reach_data Hva.
  unfold accepted, line_136 in Hacc.
  destruct d; simpl in *; line_136_cases Hacc;
    (destruct (mailOptions env req_body) as [options|]; simpl; [|reflexivity]);
    (destruct (sendMail_resolves w); simpl; [|reflexivity]);
    (destruct (truthy (req_body !! "newsletter")); simpl; [|reflexivity]);
    destruct (fetch_outcome w line_210); reflexivity.
Qed.

(** Once the first call has resolved, either the verification fails or the
    verifier's answer is there. *)
Lemma verifier_answers_or_not (req_body : body) w :
  truthy (req_body !! "g-recaptcha-response") = true →
  is_Some (js_string_opt (req_body !! "g-recaptcha-response")) →
  is_Some (fetch_outcome w line_108) →
  fetch_outcome w line_115 ≫= parsed = None ∨ ∃ d, verifier_answers req_body w d.
Proof.
  intros Ht Hs H108.
  destruct (fetch_outcome w line_115) as [r|] eqn:H115; [|left; reflexivity].
  destruct (parsed r) as [d|] eqn:Hd; simpl; [|left; exact Hd].
  right. exists d. repeat split; try assumption. exists r. split; assumption.
Qed.

Lemma verifier_answers_unique (req_body : body) w d d' :
  verifier_answers req_body w d → verifier_answers req_body w d' → d = d'.
Proof.
  intros (_ & _ & _ & r & Hr & Hd) (_ & _ & _ & r' & Hr' & Hd').
  rewrite Hr in Hr'. injection Hr' as <-. rewrite Hd in Hd'. injection Hd' as <-.
  reflexivity.
Qed.

Lemma verifier_answers_parsed (req_body : body) w d :
  verifier_answers req_body w d → fetch_outcome w line_115 ≫= parsed = Some d.
Proof. intros (_ & _ & _ & r & Hr & Hd). rewrite Hr. exact Hd. Qed.

(** The answer of the list API does not matter to [verifier_answers]. *)
Lemma verifier_answers_with_list_api (req_body : body) w a d :
  verifier_answers req_body (with_list_api w a) d ↔ verifier_answers req_body w d.
Proof. reflexivity. Qed.

Lemma accepted_line_136 d : accepted d = true ↔ line_136 d = Some false.
Proof.
  unfold accepted. destruct (line_136 d) as [[|]|]; split; congruence.
Qed.

(** *** Every path *)

(** The handler takes one of ten paths, told apart by the validation
    result, the token, the settlements of the calls, the verifier's answer
    and the conversions of the mail's fields. *)
Lemma run_cases (req_body : body) errs w g :
  let r := run w (handler env req_body errs) g in
  (errs ≠ [] ∧
     r = (Replied (Render 400 "contact"
            {| title := "Contact Us"; errors := mapped errs; formData := req_body;
               successMessage := None; siteKey := RECAPTCHA_SITE_KEY env |}), g, []))
  ∨ (errs = [] ∧ truthy (req_body !! "g-recaptcha-response") = false ∧
     r = (captcha_reply 400 "Missing reCAPTCHA token. Please try again." env req_body,
          g, []))
  ∨ (errs = [] ∧ truthy (req_body !! "g-recaptcha-response") = true ∧
     js_string_opt (req_body !! "g-recaptcha-response") = None ∧
     r = (Threw TypeError, g, []))
  ∨ (errs = [] ∧ truthy (req_body !! "g-recaptcha-response") = true ∧
     is_Some (js_string_opt (req_body !! "g-recaptcha-response")) ∧
     fetch_outcome w line_108 = None ∧
     r = (Threw FetchFailed, g, take 1 (verify_calls env req_body)))
  ∨ (errs = [] ∧ truthy (req_body !! "g-recaptcha-response") = true ∧
     is_Some (js_string_opt (req_body !! "g-recaptcha-response")) ∧
     is_Some (fetch_outcome w line_108) ∧ fetch_outcome w line_115 ≫= parsed = None ∧
     r = (captcha_reply 500 "Error verifying reCAPTCHA. Please try again." env req_body,
          g, verify_calls env req_body))
  ∨ (∃ d, errs = [] ∧ verifier_answers req_body w d ∧ line_136 d = None ∧
     r = (Threw TypeError, Some d, verify_calls env req_body))
  ∨ (∃ d, errs = [] ∧ verifier_answers req_body w d ∧ line_136 d = Some true ∧
     r = (captcha_reply 403 "reCAPTCHA failed. Please try again." env req_body,
          Some d, verify_calls env req_body))
  ∨ (∃ d, errs = [] ∧ verifier_answers req_body w d ∧ accepted d = true ∧
     mailOptions env req_body = None ∧
     r = (Threw TypeError, Some d, verify_calls env req_body))
  ∨ (∃ d, errs = [] ∧ verifier_answers req_body w d ∧ accepted d = true ∧
     is_Some (mailOptions env req_body) ∧ sendMail_resolves w = false ∧
     r = (Replied (Json 500 "Failed to send email"), Some d,
          (verify_calls env req_body ++ mail_calls env req_body)%list))
  ∨ (∃ d, errs = [] ∧ verifier_answers req_body w d ∧ accepted d = true ∧
     is_Some (mailOptions env req_body) ∧ sendMail_resolves w = true ∧
     r = (success_reply env, Some d,
          (verify_calls env req_body ++ mail_calls env req_body
             ++ subscribe_calls env req_body)%list)).
Proof.
  intros r. subst r.
  destruct errs as [|e errs].
  2:{ left. split; [discriminate|]. apply run_invalid. discriminate. }
  right. destruct (truthy (req_body !! "g-recaptcha-response")) eqn:Ht.
  2:{ left. split; [reflexivity|]. split; [reflexivity|]. apply run_missing_token. exact Ht. }
  right. destruct (js_string_opt (req_body !! "g-recaptcha-response")) as [t|] eqn:Hs.
  2:{ left. split; [reflexivity|]. split; [reflexivity|]. split; [reflexivity|].
      apply run_token_throws; assumption. }
  assert (Hs' : is_Some (js_string_opt (req_body !! "g-recaptcha-response"))).
  { rewrite Hs. eexists. reflexivity. }
  right. destruct (fetch_outcome w line_108) as [r108|] eqn:H108.
  2:{ left. split; [reflexivity|]. split; [reflexivity|]. split; [rewrite <- Hs; exact Hs'|].
      split; [reflexivity|].
      destruct (proj2 (verify_request_is_Some _) Hs') as [rq Hrq].
      rewrite (run_fetch_108_fails req_body w g rq Ht Hrq H108).
      unfold verify_calls. rewrite Hrq. reflexivity. }
  right.
  assert (H108' : is_Some (fetch_outcome w line_108)) by (rewrite H108; eexists; reflexivity).
  destruct (verifier_answers_or_not req_body w Ht Hs' H108') as [Hfail | [d Hva]].
  { left. split; [reflexivity|]. split; [reflexivity|]. split; [rewrite <- Hs; exact Hs'|].
    split; [eexists; reflexivity|]. split; [exact Hfail|].
    apply run_verification_fails; assumption. }
  right. destruct (line_136 d) as [[|]|] eqn:H136.
  - right. left. exists d. split; [reflexivity|]. split; [exact Hva|].
    split; [exact H136|]. apply run_rejected; assumption.
  - right. right.
    assert (Hacc : accepted d = true) by (apply accepted_line_136; exact H136).
    rewrite (run_accepted req_body w g d Hva Hacc). unfold mail_calls.
    destruct (mailOptions env req_body) as [options|] eqn:Hm.
    + right. destruct (sendMail_resolves w) eqn:Hmail.
      * right. exists d. split; [reflexivity|]. split; [exact Hva|]. split; [exact Hacc|].
        split; [eexists; reflexivity|]. split; reflexivity.
      * left. exists d. split; [reflexivity|]. split; [exact Hva|]. split; [exact Hacc|].
        split; [eexists; reflexivity|]. split; reflexivity.
    + left. exists d. split; [reflexivity|]. split; [exact Hva|]. split; [exact Hacc|].
      split; reflexivity.
  - left. exists d. split; [reflexivity|]. split; [exact Hva|]. split; [exact H136|].
    apply run_throws_136; assumption.
Qed.

(** *** Counting the calls *)

Lemma count_calls_app f (t1 t2 : list event) :
  count_calls f (t1 ++ t2)%list = count_calls f t1 + count_calls f t2.
Proof. unfold count_calls. rewrite filter_app, length_app. reflexivity. Qed.

Lemma count_verify_calls (req_body : body) :
  count_calls is_verify_call (verify_calls env req_body) =
    match js_string_opt (req_body !! "g-recaptcha-response") with Some _ => 2 | None => 0 end.
Proof.
  unfold verify_calls, verify_request.
  destruct (js_string_opt (req_body !! "g-recaptcha-response")); reflexivity.
Qed.

Lemma count_verify_mail_calls (req_body : body) :
  count_calls is_verify_call (mail_calls env req_body) = 0.
Proof. unfold mail_calls. destruct (mailOptions env req_body); reflexivity. Qed.

Lemma count_verify_subscribe_calls (req_body : body) :
  count_calls is_verify_call (subscribe_calls env req_body) = 0.
Proof. unfold subscribe_calls. destruct (truthy _); reflexivity. Qed.

Lemma count_mail_verify_calls (req_body : body) :
  count_calls is_mail (verify_calls env req_body) = 0.
Proof. unfold verify_calls. destruct (verify_request env _); reflexivity. Qed.

Lemma count_mail_take_verify_calls (req_body : body) :
  count_calls is_mail (take 1 (verify_calls env req_body)) = 0.
Proof. unfold verify_calls. destruct (verify_request env _); reflexivity. Qed.

Lemma count_mail_mail_calls (req_body : body) :
  count_calls is_mail (mail_calls env req_body) =
    match mailOptions env req_body with Some _ => 1 | None => 0 end.
Proof. unfold mail_calls. destruct (mailOptions env req_body); reflexivity. Qed.

Lemma count_mail_subscribe_calls (req_body : body) :
  count_calls is_mail (subscribe_calls env req_body) = 0.
Proof. unfold subscribe_calls. destruct (truthy _); reflexivity. Qed.

Lemma count_subscription_verify_calls (req_body : body) :
  count_calls is_subscription (verify_calls env req_body) = 0.
Proof. unfold verify_calls. destruct (verify_request env _); reflexivity. Qed.

Lemma count_subscription_take_verify_calls (req_body : body) :
  count_calls is_subscription (take 1 (verify_calls env req_body)) = 0.
Proof. unfold verify_calls. destruct (verify_request env _); reflexivity. Qed.

Lemma count_subscription_mail_calls (req_body : body) :
  count_calls is_subscription (mail_calls env req_body) = 0.
Proof. unfold mail_calls. destruct (mailOptions env req_body); reflexivity. Qed.

Lemma count_subscription_subscribe_calls (req_body : body) :
  count_calls is_subscription (subscribe_calls env req_body) =
    if truthy (req_body !! "newsletter") then 1 else 0.
Proof. unfold subscribe_calls. destruct (truthy _); reflexivity. Qed.

Lemma count_mail_sent (req_body : body) t m :
  count_calls is_mail (ESendMail t m :: subscribe_calls env req_body) = 1.
Proof. unfold subscribe_calls. destruct (truthy _); reflexivity. Qed.

Lemma mapped_nonempty errs : errs ≠ [] → mapped errs ≠ ∅.
Proof.
  destruct errs as [|[k e] errs]; [congruence|]. intros _. unfold mapped.
  rewrite list_to_map_cons. apply insert_non_empty.
Qed.

Lemma captcha_error_nonempty message : captcha_error message ≠ ∅.
Proof. unfold captcha_error. apply map_non_empty_singleton. Qed.

End Handler.

(** * Requests processed together *)

Section Process.
Context `{Platform} (env : config).

Lemma settle_at_rest p g : at_rest (settle p g).1.
Proof. revert g. induction p; intros g; simpl; auto. Qed.

Lemma run_settle w p g : run w p g = run w (settle p g).1 (settle p g).2.
Proof. revert g. induction p; intros g; simpl; auto. Qed.

Lemma run_resume w p g :
  outcome_of (run w p g) = outcome_of (run w (resume w p g).1 (resume w p g).2).
Proof.
  destruct p; simpl; try reflexivity.
  - rewrite (run_settle w (k (fetch_outcome w site)) g).
    by destruct (run w _ _) as [[o g'] t].
  - by rewrite (run_settle w (k (parsed r)) g).
  - rewrite (run_settle w (k (sendMail_resolves w)) g).
    by destruct (run w _ _) as [[o g'] calls].
Qed.

Lemma reads_own_settle a p g : reads_own a p → reads_own false (settle p g).1.
Proof.
  intros Hp. revert g. induction Hp; intros g; simpl; try (by constructor); auto.
Qed.

Lemma reads_own_resume w p g : reads_own false p → reads_own false (resume w p g).1.
Proof.
  intros Hp. inversion Hp; subst; simpl; try (by constructor);
    eauto using reads_own_settle.
Qed.

(** A task that reads only what it has assigned ends the same way whatever
    the global object holds when it is resumed. *)
Lemma reads_own_run w a p :
  reads_own a p → a = false →
  ∀ g1 g2, outcome_of (run w p g1) = outcome_of (run w p g2).
Proof.
  induction 1 as [| | |a site rq k _ IH|a r k _ IH|a t m k _ IH| |];
    intros Ha g1 g2; simpl; try reflexivity; try discriminate.
  - specialize (IH (fetch_outcome w site) eq_refl g1 g2).
    destruct (run w _ g1) as [[o1 g1'] t1], (run w _ g2) as [[o2 g2'] t2]. exact IH.
  - apply IH. reflexivity.
  - specialize (IH (sendMail_resolves w) eq_refl g1 g2).
    destruct (run w _ g1) as [[o1 g1'] c1], (run w _ g2) as [[o2 g2'] c2]. exact IH.
Qed.

Lemma awaits_within_settle n p g : awaits_within n p → awaits_within n (settle p g).1.
Proof. revert g. induction p; intros g; simpl; auto. Qed.

Lemma awaits_within_resume w n p g :
  at_rest p → awaits_within n p → awaits_within (pred n) (resume w p g).1.
Proof.
  destruct p; simpl; try done; destruct n; try done; simpl;
    intros _ Hk; apply awaits_within_settle, Hk.
Qed.

Lemma at_rest_resume w p g : at_rest p → at_rest (resume w p g).1.
Proof. destruct p; simpl; try done; intros _; apply settle_at_rest. Qed.

Lemma at_rest_finished p : at_rest p → awaits_within 0 p → is_Some (finished p).
Proof. destruct p; simpl; try done; eauto. Qed.

Lemma finished_outcome w p g o : finished p = Some o → outcome_of (run w p g) = o.
Proof. destruct p; simpl; try done; by intros [= <-]. Qed.

Ltac case_head :=
  lazymatch goal with
  | |- at_rest (match ?x with _ => _ end) => destruct x
  | |- reads_own _ (match ?x with _ => _ end) => destruct x
  | |- awaits_within _ (match ?x with _ => _ end) => destruct x
  end.

Lemma handler_at_rest (req_body : body) errs : at_rest (handler env req_body errs).
Proof. unfold handler, contact_view. repeat case_head; exact I. Qed.

Lemma handler_reads_own (req_body : body) errs :
  reads_own false (handler env req_body errs).
Proof.
  unfold handler, contact_view, read_data_prop.
  repeat first
    [ apply reads_own_reply | apply reads_own_uncaught | apply reads_own_next
    | apply reads_own_fetch; intros ? | apply reads_own_json; intros ?
    | apply reads_own_mail; intros ? | apply reads_own_assign
    | apply reads_own_read; intros ? | case_head ].
Qed.

(** The handler awaits at most six times: two verification calls, the
    answer's body, the mail, the list API and its answer's body. *)
Lemma handler_awaits (req_body : body) errs :
  awaits_within 6 (handler env req_body errs).
Proof.
  unfold handler, contact_view, read_data_prop.
  repeat first [ exact I | progress cbn [awaits_within] | intros ? | case_head ].
Qed.

Lemma resumed_snoc schedule j i :
  resumed (schedule ++ [j]) i = resumed schedule i + (if decide (j = i) then 1 else 0).
Proof.
  unfold resumed. rewrite filter_app, length_app. f_equal.
  rewrite filter_cons, filter_nil. by case_decide.
Qed.

Lemma route_at_rest r : at_rest (contact_us_post env r).
Proof.
  unfold contact_us_post. destruct (run_middlewares validateForm r) as [[r' errs]|];
    [apply handler_at_rest | exact I].
Qed.

Lemma route_reads_own r : reads_own false (contact_us_post env r).
Proof.
  unfold contact_us_post. destruct (run_middlewares validateForm r) as [[r' errs]|];
    [apply handler_reads_own | apply reads_own_next].
Qed.

Lemma route_awaits r : awaits_within 6 (contact_us_post env r).
Proof.
  unfold contact_us_post. destruct (run_middlewares validateForm r) as [[r' errs]|];
    [apply handler_awaits | exact I].
Qed.

Lemma task_ok_arrive r w : task_ok env w r 0 (contact_us_post env r).
Proof.
  split; [apply route_at_rest|]. split; [apply route_reads_own|].
  split; [apply route_awaits|].
  intros g. apply (reads_own_run w false); [apply route_reads_own | reflexivity].
Qed.

Lemma task_ok_resume r w c p g :
  task_ok env w r c p → task_ok env w r (S c) (resume w p g).1.
Proof.
  intros (Hrest & Hown & Hwithin & Hout).
  split; [by apply at_rest_resume|]. split; [by apply reads_own_resume|].
  split.
  - replace (6 - S c) with (pred (6 - c)) by lia. by apply awaits_within_resume.
  - intros g'. rewrite <- (Hout g), (run_resume w p g).
    apply (reads_own_run w false); [by apply reads_own_resume | reflexivity].
Qed.

(** Whatever the schedule, each task is the handler of its own request,
    resumed as often as the schedule named it. *)
Lemma execute_task_ok g0 (requests : list (world * request)) schedule i w r :
  requests !! i = Some (w, r) →
  ∃ p, tasks (execute schedule (arrive env g0 requests)) !! i = Some (w, p) ∧
       task_ok env w r (resumed schedule i) p.
Proof.
  intros Hreq. induction schedule as [|j schedule IH] using rev_ind.
  - exists (contact_us_post env r). split; [|apply task_ok_arrive].
    simpl. rewrite list_lookup_fmap, Hreq. reflexivity.
  - destruct IH as (p & Hp & Hok). unfold execute in *. rewrite foldl_snoc.
    set (s := foldl step (arrive env g0 requests) schedule) in *.
    rewrite resumed_snoc. unfold step.
    destruct (decide (j = i)) as [->|Hne].
    + rewrite Hp. destruct (resume w p (shared s)) as [p' g'] eqn:Hres.
      exists p'. simpl. split.
      * apply list_lookup_insert_eq. by eapply lookup_lt_Some.
      * replace (resumed schedule i + 1) with (S (resumed schedule i)) by lia.
        replace p' with (resume w p (shared s)).1 by by rewrite Hres.
        by apply task_ok_resume.
    + exists p. rewrite Nat.add_0_r. split; [|done].
      destruct (tasks s !! j) as [[wj pj]|]; [|done].
      destruct (resume wj pj (shared s)). simpl.
      by rewrite list_lookup_insert_ne.
Qed.

(** X1. Requests processed together, in any order of their suspensions,
    end as each would alone in a fresh process: once a task is over, its
    outcome is that of its own request run alone, and a task is over as
    soon as it has been resumed six times.  (The process is one that keeps
    serving the other requests after an exception of one handler went
    uncaught.) *)
Theorem outcome_independent_of_other_requests g0 (requests : list (world * request))
    schedule (i : nat) w r :
  requests !! i = Some (w, r) →
  ∃ p, tasks (execute schedule (arrive env g0 requests)) !! i = Some (w, p) ∧
       (∀ o, finished p = Some o →
             o = outcome_of (run w (contact_us_post env r) None)) ∧
       ((6 ≤ resumed schedule i)%nat → is_Some (finished p)).
Proof.
  intros Hreq.
  destruct (execute_task_ok g0 requests schedule i w r Hreq)
    as (p & Hp & Hrest & Hown & Hwithin & Hout).
  exists p. split; [exact Hp|]. split.
  - intros o Ho. rewrite <- (Hout None). symmetry. by apply finished_outcome.
  - intros Hsix. apply at_rest_finished; [exact Hrest|].
    replace (6 - resumed schedule i) with 0 in Hwithin by lia. exact Hwithin.
Qed.

End Process.

(** * The claims *)

Section Claims.
Context `{Platform} (env : config).


(** C2. A submission that passed validation, with a token, whose first
    verification call resolves makes two calls to the verification endpoint,
    not one (and none when the token is an object that the template literal
    of line 111 cannot convert: the handler throws before the first call). *)
Theorem C2_two_verification_calls (req_body : body) w g :
  truthy (req_body !! "g-recaptcha-response") = true →
  is_Some (fetch_outcome w line_108) →
  count_calls is_verify_call (calls_of (run w (handler env req_body []) g)) =
    match js_string_opt (req_body !! "g-recaptcha-response") with
    | Some _ => 2
    | None => 0
    end.
Proof.
  intros Ht H108.
  destruct (run_cases env req_body [] w g)
    as [(Herr & _)
       |[(_ & Ht' & _)
        |[(_ & _ & Hs & ->)
         |[(_ & _ & _ & H108' & _)
          |[(_ & _ & _ & _ & _ & ->)
           |[(d & _ & _ & _ & ->)
            |[(d & _ & _ & _ & ->)
             |[(d & _ & _ & _ & _ & ->)
              |[(d & _ & _ & _ & _ & _ & ->)
               |(d & _ & _ & _ & _ & _ & ->)]]]]]]]]];
    try congruence; unfold calls_of; cbn [snd];
    rewrite ?count_calls_app, ?count_verify_calls, ?count_verify_mail_calls,
      ?count_verify_subscribe_calls, ?Nat.add_0_r; try reflexivity.
  - rewrite Hs. reflexivity.
  - rewrite H108' in H108. destruct H108; discriminate.
Qed.

(** C3. When the verification call of line 108 fails, the handler sends
    no reply at all: the exception leaves it uncaught, after that one call
    and without any mail.  (When the token cannot be converted the exception
    is the [TypeError] of line 111 instead, uncaught as well.) *)
Theorem C3_failure_of_first_fetch_is_uncaught (req_body : body) w g :
  truthy (req_body !! "g-recaptcha-response") = true →
  fetch_outcome w line_108 = None →
  outcome_of (run w (handler env req_body []) g) =
    Threw match js_string_opt (req_body !! "g-recaptcha-response") with
          | Some _ => FetchFailed
          | None => TypeError
          end ∧
  count_calls is_mail (calls_of (run w (handler env req_body []) g)) = 0.
Proof.
  intros Ht H108.
  destruct (js_string_opt (req_body !! "g-recaptcha-response")) as [t|] eqn:Hs.
  - assert (Hrq : is_Some (verify_request env (req_body !! "g-recaptcha-response"))).
    { apply verify_request_is_Some. rewrite Hs. eexists. reflexivity. }
    destruct Hrq as [rq Hrq].
    rewrite (run_fetch_108_fails env req_body w g rq Ht Hrq H108). split; reflexivity.
  - rewrite (run_token_throws env req_body w g Ht Hs). split; reflexivity.
Qed.

(** C4. A valid submission without the token field is answered 400 with
    the [captcha] error "Missing reCAPTCHA token. Please try again." and
    the handler has made no outbound call at all: not to the verifier, not
    to the mail relay, not to the list API. *)
Theorem C4_missing_token_rejected_before_any_call (req_body : body) w g :
  req_body !! "g-recaptcha-response" = None →
  ∃ ctx,
    run w (handler env req_body []) g = (Replied (Render 400 "contact" ctx), g, []) ∧
    errors ctx = captcha_error "Missing reCAPTCHA token. Please try again." ∧
    (∃ e, errors ctx !! "captcha" = Some e ∧
          String.prefix "Missing reCAPTCHA token" (msg e) = true) ∧
    formData ctx = req_body ∧ successMessage ctx = None.
Proof.
  intros Hb. eexists. split.
  - apply run_missing_token. rewrite Hb. reflexivity.
  - cbn [errors formData successMessage]. split; [reflexivity|].
    split; [|split; reflexivity].
    eexists. split; [apply lookup_singleton_eq | reflexivity].
Qed.


(** C7. The newsletter box is ticked and the mail went out: [sendMail]
    was called and resolved.  Whatever then happens to the call to the list
    API (it rejects, its body does not parse, its answer is not [ok]), the
    call is made once and the reply is 200 with the success message. *)
Theorem C7_subscription_failure_is_swallowed (req_body : body) errs w g
    (a : option response) :
  truthy (req_body !! "newsletter") = true →
  count_calls is_mail (calls_of (run w (handler env req_body errs) g)) ≠ 0 →
  sendMail_resolves w = true →
  outcome_of (run (with_list_api w a) (handler env req_body errs) g) = success_reply env ∧
  count_calls is_subscription
    (calls_of (run (with_list_api w a) (handler env req_body errs) g)) = 1 ∧
  ∃ ctx, success_reply env = Replied (Render 200 "contact" ctx) ∧
         successMessage ctx = Some "Form submitted successfully!".
Proof.
  intros Hnews Hsent Hmail.
  assert (Hpath : errs = [] ∧ ∃ d options, verifier_answers req_body w d ∧
            accepted d = true ∧ mailOptions env req_body = Some options).
  { revert Hsent.
    destruct (run_cases env req_body errs w g)
      as [(_ & ->)
         |[(_ & _ & ->)
          |[(_ & _ & _ & ->)
           |[(_ & _ & _ & _ & ->)
            |[(_ & _ & _ & _ & _ & ->)
             |[(d & _ & _ & _ & ->)
              |[(d & _ & _ & _ & ->)
               |[(d & _ & _ & _ & _ & ->)
                |[(d & _ & _ & _ & _ & Hm & ->)
                 |(d & Herr & Hva & Hacc & [options Hopt] & _ & ->)]]]]]]]]];
      unfold calls_of; cbn [snd];
      rewrite ?count_calls_app, ?count_mail_verify_calls, ?count_mail_take_verify_calls;
      try (intros Hsent; exfalso; apply Hsent; reflexivity).
    - rewrite Hm in Hmail. discriminate.
    - intros _. split; [exact Herr|]. exists d, options.
      split; [exact Hva|]. split; [exact Hacc | exact Hopt]. }
  destruct Hpath as (-> & d & options & Hva & Hacc & Hopt).
  rewrite (run_accepted env req_body (with_list_api w a) g d Hva Hacc), Hopt.
  cbn [with_list_api sendMail_resolves]. rewrite Hmail.
  split; [reflexivity|]. split; [|eexists; split; reflexivity].
  unfold calls_of. cbn [snd].
  change (ESendMail (transporter env) options :: subscribe_calls env req_body)
    with ([ESendMail (transporter env) options] ++ subscribe_calls env req_body)%list.
  rewrite !count_calls_app, count_subscription_verify_calls,
    count_subscription_subscribe_calls, Hnews. reflexivity.
Qed.

(** C8. When [sendMail] was called and throws, the reply is the JSON
    error with status 500, not a rendered success; the mail relay was called
    once, after the two verification calls, and nothing was called after it:
    no second attempt and no call to the list API. *)
Theorem C8_mail_failure_is_fatal (req_body : body) errs w g :
  count_calls is_mail (calls_of (run w (handler env req_body errs) g)) ≠ 0 →
  sendMail_resolves w = false →
  ∃ d options,
    mailOptions env req_body = Some options ∧
    run w (handler env req_body errs) g =
      (Replied (Json 500 "Failed to send email"), Some d,
       (verify_calls env req_body ++ [ESendMail (transporter env) options])%list) ∧
    count_calls is_mail (calls_of (run w (handler env req_body errs) g)) = 1 ∧
    count_calls is_subscription (calls_of (run w (handler env req_body errs) g)) = 0.
Proof.
  intros Hsent Hmail. revert Hsent.
  destruct (run_cases env req_body errs w g)
    as [(_ & ->)
       |[(_ & _ & ->)
        |[(_ & _ & _ & ->)
         |[(_ & _ & _ & _ & ->)
          |[(_ & _ & _ & _ & _ & ->)
           |[(d & _ & _ & _ & ->)
            |[(d & _ & _ & _ & ->)
             |[(d & _ & _ & _ & _ & ->)
              |[(d & Herr & Hva & Hacc & [options Hopt] & _ & ->)
               |(d & _ & _ & _ & _ & Hm & ->)]]]]]]]]];
    unfold calls_of; cbn [snd];
    rewrite ?count_calls_app, ?count_mail_verify_calls, ?count_mail_take_verify_calls,
      ?count_subscription_verify_calls;
    try (intros Hsent; exfalso; apply Hsent; reflexivity).
  - intros _. exists d, options. unfold mail_calls. rewrite Hopt.
    split; [reflexivity|]. split; [reflexivity|]. split; reflexivity.
  - rewrite Hm in Hmail. discriminate.
Qed.


(** C6. When a field rule fails the reply is 400 and renders the form
    with [req.body] as the validators left it, not with the submitted input:
    while every field that no chain names is echoed as submitted, a first
    name, last name or message submitted as a string comes back trimmed and
    escaped, and an email trimmed and normalized; whenever trimming and
    escaping change one of them, [formData] differs from the submitted
    body. *)
Theorem C6_rejected_form_echoes_sanitized_body (r r' : request) errs w g :
  run_middlewares validateForm r = Some (r', errs) → errs ≠ [] →
  ∃ ctx,
    run w (contact_us_post env r) g = (Replied (Render 400 "contact" ctx), g, []) ∧
    formData ctx = body_of r' ∧
    (∀ k, k ∉ ["first_name"; "last_name"; "email"; "message"] →
          formData ctx !! k = body_of r !! k) ∧
    (∀ f s, f ∈ text_fields → body_of r !! f = Some (VStr s) →
            formData ctx !! f = Some (VStr (escape (trim s))) ∧
            (escape (trim s) ≠ s → formData ctx ≠ body_of r)) ∧
    (∀ s, body_of r !! "email" = Some (VStr s) →
          formData ctx !! "email" = Some (normalizeEmail_value (trim s))).
Proof.
  intros Hrun Herr. eexists. split.
  { rewrite (route_validated env r r' errs Hrun). apply run_invalid. exact Herr. }
  cbn [formData]. split; [reflexivity|]. split; [|split].
  - intros k Hk. exact (proj1 (validated_other r r' errs k Hk Hrun) Body).
  - intros f s Hf Hb. pose proof (sanitized_text_field r r' errs f s Hf Hb Hrun) as Hs.
    split; [exact Hs|]. intros Hne Heq. rewrite Heq, Hb in Hs. congruence.
  - intros s Hb. exact (sanitized_email r r' errs s Hb Hrun).
Qed.

(** C9. The length of the first name is tested after [escape] has
    lengthened it.  For a first name that the body alone carries, as one
    value, or that was not submitted: when what is left of it after trimming
    and escaping has fewer than 3 characters the reply is 400 with the error
    "First name is required" when nothing is left and "First name must be at
    least 3 characters long" otherwise; when it has 3 characters or more
    there is no error for the first name, although the trimmed first name may
    be shorter than 3. *)
Theorem C9_first_name_is_measured_after_escaping (r r' : request) errs w g s :
  run_middlewares validateForm r = Some (r', errs) →
  body_only "first_name" r → single (body_of r !! "first_name") →
  to_string (body_of r !! "first_name") = Some s →
  ((String.length (escape (trim s)) < 3)%nat →
   ∃ ctx,
     run w (contact_us_post env r) g = (Replied (Render 400 "contact" ctx), g, []) ∧
     msg <$> errors ctx !! "first_name" =
       Some (if isEmpty (escape (trim s)) then "First name is required"
             else "First name must be at least 3 characters long")) ∧
  ((3 ≤ String.length (escape (trim s)))%nat → mapped errs !! "first_name" = None).
Proof.
  intros Hrun Hbody Hsingle Hs.
  pose proof (validated_body_field r r' errs _ _ first_name_in_validateForm Hbody Hrun)
    as Hchain.
  unfold first_name_chain in Hchain.
  rewrite (text_chain_single _ s _ _ _ Hsingle Hs) in Hchain. cbn zeta in Hchain.
  injection Hchain as _ Hkeyed. split.
  - intros Hlen.
    assert (Hshort : isLength 3 (escape (trim s)) = false).
    { unfold isLength. apply Nat.leb_gt. exact Hlen. }
    rewrite Hshort in Hkeyed.
    assert (Hfirst : msg <$> mapped errs !! "first_name" =
              Some (if isEmpty (escape (trim s)) then "First name is required"
                    else "First name must be at least 3 characters long")).
    { rewrite mapped_keyed, <- Hkeyed. destruct (isEmpty (escape (trim s))); reflexivity. }
    eexists. split.
    + rewrite (route_validated env r r' errs Hrun). apply run_invalid.
      intros ->. discriminate Hfirst.
    + exact Hfirst.
  - intros Hlen.
    assert (Hlong : isLength 3 (escape (trim s)) = true).
    { unfold isLength. apply Nat.leb_le. exact Hlen. }
    rewrite Hlong, (isLength_nonempty 2 _ Hlong) in Hkeyed.
    rewrite mapped_keyed, <- Hkeyed. reflexivity.
Qed.

End Claims.

(** * Further properties of the handler *)

Section PathProperties.
Context `{Platform} (env : config).

Ltac paths req_body errs w g :=
  destruct (run_cases env req_body errs w g)
    as [(Herr & ->)
       |[(Herr & Ht & ->)
        |[(Herr & Ht & Hs & ->)
         |[(Herr & Ht & Hs & H108 & ->)
          |[(Herr & Ht & Hs & H108 & H115 & ->)
           |[(d & Herr & Hva & H136 & ->)
            |[(d & Herr & Hva & H136 & ->)
             |[(d & Herr & Hva & Hacc & Hopt & ->)
              |[(d & Herr & Hva & Hacc & Hopt & Hmail & ->)
               |(d & Herr & Hva & Hacc & Hopt & Hmail & ->)]]]]]]]]].

Ltac count_mails :=
  unfold calls_of; cbn [snd];
  rewrite ?count_calls_app, ?count_mail_verify_calls, ?count_mail_take_verify_calls,
    ?count_mail_mail_calls, ?count_mail_subscribe_calls, ?count_mail_sent.

Ltac count_subscriptions :=
  unfold calls_of; cbn [snd];
  rewrite ?count_calls_app, ?count_subscription_verify_calls,
    ?count_subscription_take_verify_calls, ?count_subscription_mail_calls,
    ?count_subscription_subscribe_calls.

Lemma not_accepted_throws d : line_136 d = None → accepted d = false.
Proof. unfold accepted. intros ->. reflexivity. Qed.

Lemma not_accepted_rejected d : line_136 d = Some true → accepted d = false.
Proof. unfold accepted. intros ->. reflexivity. Qed.

(** X2. Whatever the request and whatever the network does, the handler
    ends in one of these ways: the contact view at 200 with the success
    message, no errors and an empty form; the contact view at 400, 403 or 500
    with at least one error, no success message and [req.body] as the form;
    the JSON error "Failed to send email" at 500; or an uncaught exception,
    which is the failed fetch of line 108 or a [TypeError] (of a conversion at
    line 111, 136 or 156-173, or of the read of a [null] answer at line 136),
    never a [ReferenceError] on [data]. *)
Theorem handler_ends_in_a_documented_way (req_body : body) errs w g :
  match outcome_of (run w (handler env req_body errs) g) with
  | Replied (Render status view ctx) =>
      view = "contact" ∧ title ctx = "Contact Us" ∧ siteKey ctx = RECAPTCHA_SITE_KEY env ∧
      ((status = 200%Z ∧ successMessage ctx = Some "Form submitted successfully!" ∧
        errors ctx = ∅ ∧ formData ctx = ∅)
       ∨ ((status = 400%Z ∨ status = 403%Z ∨ status = 500%Z) ∧ successMessage ctx = None ∧
          errors ctx ≠ ∅ ∧ formData ctx = req_body))
  | Replied (Json status error) => status = 500%Z ∧ error = "Failed to send email"
  | Threw e => e = FetchFailed ∨ e = TypeError
  | PassedOn _ => False
  end.
Proof.
  paths req_body errs w g; cbn [outcome_of fst captcha_reply success_reply];
    try (split; [reflexivity|]; split; [reflexivity|]; split; [reflexivity|]).
  - right. split; [left; reflexivity|]. split; [reflexivity|].
    split; [apply mapped_nonempty; exact Herr | reflexivity].
  - right. split; [left; reflexivity|]. split; [reflexivity|].
    split; [apply captcha_error_nonempty | reflexivity].
  - right. reflexivity.
  - left. reflexivity.
  - right. split; [right; right; reflexivity|]. split; [reflexivity|].
    split; [apply captcha_error_nonempty | reflexivity].
  - right. reflexivity.
  - right. split; [right; left; reflexivity|]. split; [reflexivity|].
    split; [apply captcha_error_nonempty | reflexivity].
  - right. reflexivity.
  - split; reflexivity.
  - left. repeat split; reflexivity.
Qed.


(** X4. The mail is sent exactly when the request passed validation, the
    verifier's answer was accepted and the fields of the mail can be
    converted to strings, and then once. *)
Theorem mail_sent_iff_accepted (req_body : body) errs w g :
  let mails := count_calls is_mail (calls_of (run w (handler env req_body errs) g)) in
  (mails = 0 ∨ mails = 1) ∧
  (mails = 1 ↔ errs = [] ∧ (∃ d, verifier_answers req_body w d ∧ accepted d = true) ∧
               is_Some (mailOptions env req_body)).
Proof.
  intros mails. subst mails.
  paths req_body errs w g; count_mails.
  - split; [left; reflexivity|]. split; [discriminate|]. intros [Hnil _]. congruence.
  - split; [left; reflexivity|]. split; [discriminate|].
    intros (_ & (d & (Ht' & _) & _) & _). congruence.
  - split; [left; reflexivity|]. split; [discriminate|].
    intros (_ & (d & (_ & [t Ht'] & _) & _) & _). congruence.
  - split; [left; reflexivity|]. split; [discriminate|].
    intros (_ & (d & (_ & _ & [r Hr] & _) & _) & _). congruence.
  - split; [left; reflexivity|]. split; [discriminate|].
    intros (_ & (d & Hva & _) & _). apply verifier_answers_parsed in Hva. congruence.
  - split; [left; reflexivity|]. split; [discriminate|].
    intros (_ & (d' & Hva' & Hacc') & _).
    rewrite <- (verifier_answers_unique _ _ _ _ Hva Hva'), (not_accepted_throws _ H136) in Hacc'.
    discriminate Hacc'.
  - split; [left; reflexivity|]. split; [discriminate|].
    intros (_ & (d' & Hva' & Hacc') & _).
    rewrite <- (verifier_answers_unique _ _ _ _ Hva Hva'), (not_accepted_rejected _ H136) in Hacc'.
    discriminate Hacc'.
  - split; [left; reflexivity|]. split; [discriminate|].
    intros (_ & _ & [options Hopt']). congruence.
  - destruct Hopt as [options Hopt]. rewrite Hopt.
    split; [right; reflexivity|]. split; [|intros _; reflexivity].
    intros _. split; [exact Herr|]. split; [exists d; split; assumption|].
    eexists. reflexivity.
  - destruct Hopt as [options Hopt]. rewrite Hopt.
    split; [right; reflexivity|]. split; [|intros _; reflexivity].
    intros _. split; [exact Herr|]. split; [exists d; split; assumption|].
    eexists. reflexivity.
Qed.

(** X5. The list API is called exactly when the request passed validation,
    the verifier's answer was accepted, the mail was built and went out and
    the newsletter box was ticked, and then once. *)
Theorem subscription_iff_opted_in_after_mail (req_body : body) errs w g :
  let subs := count_calls is_subscription (calls_of (run w (handler env req_body errs) g)) in
  (subs = 0 ∨ subs = 1) ∧
  (subs = 1 ↔
     errs = [] ∧ (∃ d, verifier_answers req_body w d ∧ accepted d = true) ∧
     is_Some (mailOptions env req_body) ∧
     sendMail_resolves w = true ∧ truthy (req_body !! "newsletter") = true).
Proof.
  intros subs. subst subs.
  paths req_body errs w g; count_subscriptions.
  - split; [left; reflexivity|]. split; [discriminate|]. intros [Hnil _]. congruence.
  - split; [left; reflexivity|]. split; [discriminate|].
    intros (_ & (d & (Ht' & _) & _) & _). congruence.
  - split; [left; reflexivity|]. split; [discriminate|].
    intros (_ & (d & (_ & [t Ht'] & _) & _) & _). congruence.
  - split; [left; reflexivity|]. split; [discriminate|].
    intros (_ & (d & (_ & _ & [r Hr] & _) & _) & _). congruence.
  - split; [left; reflexivity|]. split; [discriminate|].
    intros (_ & (d & Hva & _) & _). apply verifier_answers_parsed in Hva. congruence.
  - split; [left; reflexivity|]. split; [discriminate|].
    intros (_ & (d' & Hva' & Hacc') & _).
    rewrite <- (verifier_answers_unique _ _ _ _ Hva Hva'), (not_accepted_throws _ H136) in Hacc'.
    discriminate Hacc'.
  - split; [left; reflexivity|]. split; [discriminate|].
    intros (_ & (d' & Hva' & Hacc') & _).
    rewrite <- (verifier_answers_unique _ _ _ _ Hva Hva'), (not_accepted_rejected _ H136) in Hacc'.
    discriminate Hacc'.
  - split; [left; reflexivity|]. split; [discriminate|].
    intros (_ & _ & [options Hopt'] & _). congruence.
  - split; [left; reflexivity|]. split; [discriminate|].
    intros (_ & _ & _ & Hmail' & _). congruence.
  - destruct (truthy (req_body !! "newsletter")) eqn:Hnews.
    + split; [right; reflexivity|]. split; [|intros _; reflexivity]. intros _.
      split; [exact Herr|]. split; [exists d; split; assumption|].
      split; [exact Hopt|]. split; [exact Hmail | reflexivity].
    + split; [left; reflexivity|]. split; [discriminate|]. intros (_ & _ & _ & _ & Hn).
      discriminate Hn.
Qed.

(** X6. The reply is the success page exactly when the request passed
    validation, the verifier's answer was accepted and the mail was built
    and went out; neither the newsletter box nor the list API has a say. *)
Theorem success_iff_mail_went_out (req_body : body) errs w g :
  outcome_of (run w (handler env req_body errs) g) = success_reply env ↔
  errs = [] ∧ (∃ d, verifier_answers req_body w d ∧ accepted d = true) ∧
  is_Some (mailOptions env req_body) ∧ sendMail_resolves w = true.
Proof.
  paths req_body errs w g; cbn [outcome_of fst]; unfold success_reply, captcha_reply.
  - split; [discriminate|]. intros [Hnil _]. congruence.
  - split; [discriminate|]. intros (_ & (d & (Ht' & _) & _) & _). congruence.
  - split; [discriminate|]. intros (_ & (d & (_ & [t Ht'] & _) & _) & _). congruence.
  - split; [discriminate|]. intros (_ & (d & (_ & _ & [r Hr] & _) & _) & _). congruence.
  - split; [discriminate|].
    intros (_ & (d & Hva & _) & _). apply verifier_answers_parsed in Hva. congruence.
  - split; [discriminate|]. intros (_ & (d' & Hva' & Hacc') & _).
    rewrite <- (verifier_answers_unique _ _ _ _ Hva Hva'), (not_accepted_throws _ H136) in Hacc'.
    discriminate Hacc'.
  - split; [discriminate|]. intros (_ & (d' & Hva' & Hacc') & _).
    rewrite <- (verifier_answers_unique _ _ _ _ Hva Hva'), (not_accepted_rejected _ H136) in Hacc'.
    discriminate Hacc'.
  - split; [discriminate|]. intros (_ & _ & [options Hopt'] & _). congruence.
  - split; [discriminate|]. intros (_ & _ & _ & Hmail'). congruence.
  - split; [|intros _; reflexivity]. intros _. split; [exact Herr|].
    split; [exists d; split; assumption|]. split; [exact Hopt | exact Hmail].
Qed.

(** X7. When the token can be converted, the first verification call
    resolves and the second one is rejected, or its body does not parse, the
    reply is 500 with the [captcha] error "Error verifying reCAPTCHA. Please
    try again." and [req.body] as the form; the two verification calls were
    made and nothing else; [data] is left as it was. *)
Theorem guarded_verification_failure_renders_500 (req_body : body) w g :
  truthy (req_body !! "g-recaptcha-response") = true →
  is_Some (js_string_opt (req_body !! "g-recaptcha-response")) →
  is_Some (fetch_outcome w line_108) →
  fetch_outcome w line_115 ≫= parsed = None →
  run w (handler env req_body []) g =
    (captcha_reply 500 "Error verifying reCAPTCHA. Please try again." env req_body, g,
     verify_calls env req_body) ∧
  count_calls is_verify_call (calls_of (run w (handler env req_body []) g)) = 2 ∧
  count_calls is_mail (calls_of (run w (handler env req_body []) g)) = 0.
Proof.
  intros Ht Hs H108 H115. rewrite (run_verification_fails env req_body w g Ht Hs H108 H115).
  split; [reflexivity|]. unfold calls_of. cbn [snd].
  rewrite count_verify_calls, count_mail_verify_calls. destruct Hs as [t ->].
  split; reflexivity.
Qed.

(** X8. When the verifier's answer is the JSON value [null], line 136
    throws a [TypeError] outside every [try]: the handler sends no reply, and
    no mail; [null] stays in [data]. *)
Theorem null_answer_is_an_uncaught_TypeError (req_body : body) w g :
  verifier_answers req_body w JNull →
  run w (handler env req_body []) g = (Threw TypeError, Some JNull, verify_calls env req_body) ∧
  count_calls is_mail (calls_of (run w (handler env req_body []) g)) = 0.
Proof.
  intros Hva. rewrite (run_throws_136 env req_body w g JNull Hva eq_refl).
  split; [reflexivity|]. unfold calls_of. cbn [snd]. apply count_mail_verify_calls.
Qed.

(** X9. An answer without a [score] is not rejected for its score:
    [undefined < 0.5] is false.  With a truthy [success] and the action
    "submit" it is accepted, and the mail is sent when its fields can be
    converted. *)
Theorem answer_without_score_is_accepted (req_body : body) w g l :
  verifier_answers req_body w (JObj l) →
  member "score" l = None →
  json_truthy (member "success" l) = true →
  member "action" l = Some (JStr "submit") →
  accepted (JObj l) = true ∧
  count_calls is_mail (calls_of (run w (handler env req_body []) g)) =
    match mailOptions env req_body with Some _ => 1 | None => 0 end.
Proof.
  intros Hva Hscore Hsuccess Haction.
  assert (Hacc : accepted (JObj l) = true).
  { unfold accepted, line_136. cbn [get_prop]. rewrite Hscore, Hsuccess, Haction.
    reflexivity. }
  split; [exact Hacc|].
  rewrite (run_accepted env req_body w g _ Hva Hacc).
  destruct (mailOptions env req_body) as [options|];
    [destruct (sendMail_resolves w)|]; count_mails; reflexivity.
Qed.

(** X10. On an answer of the documented shape, success a boolean, score a
    number, action a string, the handler goes on to the mail exactly when
    success is true, the score is not below 0.5 and the action is "submit",
    and sends it when its fields can be converted; otherwise the reply is
    403. *)
Theorem well_formed_answer_decides (req_body : body) w g success score action :
  verifier_answers req_body w (verdict success score action) →
  let go := success && negb (PrimFloat.ltb score 0.5) && String.eqb action "submit" in
  count_calls is_mail (calls_of (run w (handler env req_body []) g)) =
    (if go then match mailOptions env req_body with Some _ => 1 | None => 0 end else 0) ∧
  (go = false →
   outcome_of (run w (handler env req_body []) g)
     = captcha_reply 403 "reCAPTCHA failed. Please try again." env req_body).
Proof.
  intros Hva go.
  assert (H136 : line_136 (verdict success score action) = Some (negb go)).
  { unfold line_136, go, verdict, below_half.
    cbn [get_prop member to_number json_truthy not_submit String.eqb Ascii.eqb Bool.eqb
         fmap option_fmap option_map].
    destruct success; cbn [negb andb]; [|reflexivity].
    destruct (PrimFloat.ltb score 0.5); cbn [negb andb]; reflexivity. }
  destruct go.
  - assert (Hacc : accepted (verdict success score action) = true).
    { apply accepted_line_136. exact H136. }
    rewrite (run_accepted env req_body w g _ Hva Hacc). split; [|discriminate].
    destruct (mailOptions env req_body) as [options|];
      [destruct (sendMail_resolves w)|]; count_mails; reflexivity.
  - rewrite (run_rejected env req_body w g _ Hva H136).
    split; [count_mails; reflexivity | intros _; reflexivity].
Qed.

(** X11. A request that does not get an answer from the verifier leaves
    the global [data] as it found it. *)
Theorem data_untouched_without_answer (req_body : body) errs w g :
  (∀ d, ¬ (errs = [] ∧ verifier_answers req_body w d)) →
  globals_of (run w (handler env req_body errs) g) = g.
Proof.
  intros Hno.
  paths req_body errs w g; cbn [globals_of fst snd]; try reflexivity;
    exfalso; eapply Hno; split; eassumption.
Qed.

(** X12. A 200 reply of the POST route is the page of [GET /contact-us]
    with nothing changed but the success message: the form is blank and
    shows no error. *)
Theorem success_page_is_the_blank_form (req_body : body) errs w g r :
  outcome_of (run w (handler env req_body errs) g) = Replied r →
  status_of r = 200%Z →
  ∃ ctx, contact_us_get env = Render 200 "contact" ctx ∧ successMessage ctx = None ∧
    r = Render 200 "contact"
          {| title := title ctx; errors := errors ctx; formData := formData ctx;
             successMessage := Some "Form submitted successfully!";
             siteKey := siteKey ctx |}.
Proof.
  intros Hr Hstatus. eexists. split; [reflexivity|]. split; [reflexivity|]. cbn.
  revert Hr.
  paths req_body errs w g; cbn [outcome_of fst]; unfold captcha_reply, success_reply;
    intros [= <-]; try discriminate Hstatus.
  reflexivity.
Qed.

(** The handler calls nothing exactly when validation left an error, the
    token is missing or empty, or the token cannot be converted. *)
Lemma handler_silent_iff (req_body : body) errs w g :
  calls_of (run w (handler env req_body errs) g) = [] ↔
  errs ≠ [] ∨ truthy (req_body !! "g-recaptcha-response") = false
  ∨ js_string_opt (req_body !! "g-recaptcha-response") = None.
Proof.
  assert (Hcalls : is_Some (js_string_opt (req_body !! "g-recaptcha-response")) →
            ∀ n rest, (take (S n) (verify_calls env req_body) ++ rest)%list ≠ []).
  { intros [t Ht] n rest. unfold verify_calls, verify_request. rewrite Ht. discriminate. }
  paths req_body errs w g; cbn [calls_of snd].
  - split; [intros _; left; exact Herr | reflexivity].
  - split; [intros _; right; left; exact Ht | reflexivity].
  - split; [intros _; right; right; exact Hs | reflexivity].
  - split; [intros Hnil; exfalso; apply (Hcalls Hs 0 []); rewrite app_nil_r; exact Hnil|].
    intros [Hne | [Hf | Hnone]]; [congruence | congruence|].
    rewrite Hnone in Hs. destruct Hs; discriminate.
  - split; [intros Hnil; exfalso; apply (Hcalls Hs 1 []); rewrite app_nil_r, firstn_all2;
            [exact Hnil | unfold verify_calls; destruct (verify_request _ _); cbn; lia]|].
    intros [Hne | [Hf | Hnone]]; [congruence | congruence|].
    rewrite Hnone in Hs. destruct Hs; discriminate.
  - destruct Hva as (Ht & Hs & _).
    split; [intros Hnil; exfalso; apply (Hcalls Hs 1 []); rewrite app_nil_r, firstn_all2;
            [exact Hnil | unfold verify_calls; destruct (verify_request _ _); cbn; lia]|].
    intros [Hne | [Hf | Hnone]]; [congruence | congruence|].
    rewrite Hnone in Hs. destruct Hs; discriminate.
  - destruct Hva as (Ht & Hs & _).
    split; [intros Hnil; exfalso; apply (Hcalls Hs 1 []); rewrite app_nil_r, firstn_all2;
            [exact Hnil | unfold verify_calls; destruct (verify_request _ _); cbn; lia]|].
    intros [Hne | [Hf | Hnone]]; [congruence | congruence|].
    rewrite Hnone in Hs. destruct Hs; discriminate.
  - destruct Hva as (Ht & Hs & _).
    split; [intros Hnil; exfalso; apply (Hcalls Hs 1 []); rewrite app_nil_r, firstn_all2;
            [exact Hnil | unfold verify_calls; destruct (verify_request _ _); cbn; lia]|].
    intros [Hne | [Hf | Hnone]]; [congruence | congruence|].
    rewrite Hnone in Hs. destruct Hs; discriminate.
  - destruct Hva as (Ht & Hs & _).
    split; [intros Hnil; exfalso; apply (Hcalls Hs 1 (mail_calls env req_body));
            rewrite firstn_all2;
            [exact Hnil | unfold verify_calls; destruct (verify_request _ _); cbn; lia]|].
    intros [Hne | [Hf | Hnone]]; [congruence | congruence|].
    rewrite Hnone in Hs. destruct Hs; discriminate.
  - destruct Hva as (Ht & Hs & _).
    split; [intros Hnil; exfalso;
            apply (Hcalls Hs 1 (mail_calls env req_body ++ subscribe_calls env req_body)%list);
            rewrite firstn_all2;
            [exact Hnil | unfold verify_calls; destruct (verify_request _ _); cbn; lia]|].
    intros [Hne | [Hf | Hnone]]; [congruence | congruence|].
    rewrite Hnone in Hs. destruct Hs; discriminate.
Qed.

End PathProperties.

(** * Further properties of the validation and of the route *)

Section RouteProperties.
Context `{Platform} (env : config).

Lemma field_somewhere field r :
  (∀ loc, req_at r loc !! field = None) ∨ (∃ loc, is_Some (req_at r loc !! field)).
Proof.
  destruct (decide (Forall (λ loc, ¬ is_Some (req_at r loc !! field)) locations))
    as [Hall | Hnot].
  - left. intros loc. apply eq_None_not_Some.
    exact (proj1 (Forall_forall _ _) Hall loc (elem_of_locations loc)).
  - right. apply not_Forall_Exists in Hnot; [|apply _].
    apply Exists_exists in Hnot as (loc & _ & Hloc). exists loc. cbn in Hloc.
    destruct (req_at r loc !! field) as [v|]; [eexists; reflexivity|].
    exfalso. apply Hloc. apply is_Some_None.
Qed.

(** On each instance of one of its fields, [validateForm] runs the field's
    chain. *)
Lemma validated_instance r r' errs field items loc :
  (field, items) ∈ validateForm → loc ∈ instances field r →
  run_middlewares validateForm r = Some (r', errs) →
  ∃ e', run_chain items (req_at r loc !! field) = Some (req_at r' loc !! field, e').
Proof.
  intros Hin Hloc Hrun. destruct (validated_field _ _ _ _ _ Hin Hrun) as (rf & Hrf & Hagree).
  destruct (run_stack_instance _ _ _ _ _ Hrf) as [Hinst _].
  destruct (Hinst loc Hloc) as [e' He']. exists e'. rewrite (Hagree loc). exact He'.
Qed.

Lemma email_chain_result v s :
  single v → to_string v = Some s →
  run_chain email_chain v
  = Some (Some (normalizeEmail_value (trim s)),
          if isEmail (normalized_address (trim s)) then []
          else [{| msg := "Email is not valid";
                   value_of := Some (normalizeEmail_value (trim s)) |}]).
Proof.
  intros Hv Hs. destruct (email_chain_single v s Hv Hs) as (a & Ha & ->).
  unfold normalized_address. unfold normalizeEmail_value in Ha.
  destruct (normalizeEmail (trim s)); injection Ha as <-; reflexivity.
Qed.

Lemma text_field_chain field :
  field ∈ text_fields →
  ∃ items, Forall validator_item items ∧
    (field, Sanitize (fun s => VStr (trim s)) :: Sanitize (fun s => VStr (escape s))
              :: items) ∈ validateForm.
Proof.
  unfold text_fields. rewrite !elem_of_cons. intros [->|[->|[->|Hnil]]].
  - eexists. split; [|exact first_name_in_validateForm]. repeat constructor.
  - eexists. split; [|exact last_name_in_validateForm]. repeat constructor.
  - eexists. split; [|exact message_in_validateForm]. repeat constructor.
  - by apply elem_of_nil in Hnil.
Qed.

(** A chain that begins with a sanitizer leaves a value. *)
Lemma run_chain_is_Some items v v' e :
  is_Some v → run_chain items v = Some (v', e) → is_Some v'.
Proof.
  revert v e. induction items as [|it items IH]; intros v e Hv Hrun.
  - injection Hrun as <- _. exact Hv.
  - cbn [run_chain] in Hrun. apply bind_Some in Hrun as ([v1 e1] & Hitem & Hrun).
    apply bind_Some in Hrun as ([v2 e2] & Hrest & Hrun). injection Hrun as <- _.
    apply (IH v1 e2); [|exact Hrest].
    destruct (run_item_value _ _ _ _ Hitem) as [-> | Hs]; assumption.
Qed.

Lemma sanitizing_chain_is_Some f items v v' e :
  run_chain (Sanitize f :: items) v = Some (v', e) → is_Some v'.
Proof.
  intros Hrun. cbn [run_chain] in Hrun. apply bind_Some in Hrun as ([v1 e1] & Hitem & Hrun).
  apply bind_Some in Hrun as ([v2 e2] & Hrest & Hrun). injection Hrun as <- _.
  apply (run_chain_is_Some items v1 v2 e2); [|exact Hrest].
  cbn [run_item] in Hitem. destruct v as [[x|b|l|l]|];
    apply bind_Some in Hitem as (? & ? & Hitem); injection Hitem as <- _;
    eexists; reflexivity.
Qed.

Lemma validateForm_sanitizes field items :
  (field, items) ∈ validateForm → ∃ f rest, items = Sanitize f :: rest.
Proof.
  unfold validateForm. rewrite !elem_of_cons.
  intros [[= -> ->]|[[= -> ->]|[[= -> ->]|[[= -> ->]|Hnil]]]];
    [do 2 eexists; reflexivity..|by apply elem_of_nil in Hnil].
Qed.

(** X13. The chains do not interfere: what validation reports for one of
    [first_name], [last_name], [email], [message] and what it leaves of it in
    the request depend on what the request holds for that field, in its body
    and the other locations, and on nothing else in the request. *)
Theorem fields_are_validated_independently (r1 r2 r1' r2' : request) errs1 errs2 f :
  f ∈ validateForm.*1 → agree_on f r1 r2 →
  run_middlewares validateForm r1 = Some (r1', errs1) →
  run_middlewares validateForm r2 = Some (r2', errs2) →
  mapped errs1 !! f = mapped errs2 !! f ∧ agree_on f r1' r2'.
Proof.
  intros Hf Hagree Hrun1 Hrun2. destruct (validateForm_chain f Hf) as [items Hin].
  destruct (validated_field _ _ _ _ _ Hin Hrun1) as (rf1 & Hrf1 & Ha1).
  destruct (validated_field _ _ _ _ _ Hin Hrun2) as (rf2 & Hrf2 & Ha2).
  pose proof (run_stack_alike items f r1 r2 Hagree) as Halike.
  rewrite Hrf1, Hrf2 in Halike. destruct Halike as [Hk Hrf].
  split; [rewrite !mapped_keyed, Hk; reflexivity|].
  eapply agree_on_trans; [exact Ha1|]. eapply agree_on_trans; [exact Hrf|].
  apply agree_on_sym. exact Ha2.
Qed.

(** X14. The error mapping of a rejected submission is not empty and has
    keys among [first_name], [last_name], [email] and [message] only. *)
Theorem error_mapping_names_validated_fields (r r' : request) errs :
  run_middlewares validateForm r = Some (r', errs) →
  (errs ≠ [] → mapped errs ≠ ∅) ∧
  ∀ k, is_Some (mapped errs !! k) →
       k ∈ ["first_name"; "last_name"; "email"; "message"].
Proof.
  intros Hrun. split; [apply mapped_nonempty|].
  intros k [e He].
  destruct (decide (k ∈ ["first_name"; "last_name"; "email"; "message"])) as [Hin|Hout];
    [exact Hin|].
  rewrite (proj2 (validated_other r r' errs k Hout Hrun)) in He. discriminate He.
Qed.

(** X15. After validation [req.body] holds, for the first name, the last
    name and the message, an output of [escape] or an array of such, text
    without quotes, angle brackets, slashes, backslashes and backquotes,
    whatever was submitted; or it holds nothing, when the body came without
    the field and another location of the request has it. *)
Theorem text_fields_are_escaped (r r' : request) errs f :
  run_middlewares validateForm r = Some (r', errs) → f ∈ text_fields →
  match body_of r' !! f with
  | Some v => value_markup_free v = true
  | None => body_of r !! f = None ∧ ∃ loc, is_Some (req_at r loc !! f)
  end.
Proof.
  intros Hrun Hf. destruct (text_field_chain f Hf) as (items & Hitems & Hin).
  assert (Hselected : Body ∈ instances f r →
            ∃ v, body_of r' !! f = Some v ∧ value_markup_free v = true).
  { intros Hbody. destruct (validated_instance _ _ _ _ _ Body Hin Hbody Hrun) as [e' He'].
    exact (escaping_chain_value _ _ _ _ Hitems He'). }
  destruct (body_of r !! f) as [v|] eqn:Hb.
  - destruct Hselected as (x & -> & Hx); [|exact Hx].
    apply elem_of_instances. left. cbn [req_at]. rewrite Hb. eexists. reflexivity.
  - destruct (field_somewhere f r) as [Hnone | [loc Hloc]].
    + destruct Hselected as (x & -> & Hx); [|exact Hx].
      apply elem_of_instances. right. split; [reflexivity | exact Hnone].
    + rewrite (validated_body_skipped _ _ _ _ _ loc Hin Hb Hloc Hrun).
      split; [reflexivity|]. exists loc. exact Hloc.
Qed.

Lemma blank_to_string v : blank v = true → single v ∧ ∃ s, to_string v = Some s ∧ trim s = "".
Proof.
  destruct v as [[s|c|l|l]|]; cbn [blank]; try discriminate.
  - intros Hs. split; [exact I|]. exists s. split; [reflexivity | apply trim_blank; exact Hs].
  - intros _. split; [exact I|]. exists "". split; reflexivity.
Qed.

(** X16. A first name, last name or message that only the body could
    carry and that was not submitted, or holds white space only, is answered
    with its "is required" message, and [req.body] then holds the empty string
    for it. *)
Theorem blank_text_field_is_required (r r' : request) errs :
  run_middlewares validateForm r = Some (r', errs) →
  (body_only "first_name" r → blank (body_of r !! "first_name") = true →
     msg <$> mapped errs !! "first_name" = Some "First name is required" ∧
     body_of r' !! "first_name" = Some (VStr "")) ∧
  (body_only "last_name" r → blank (body_of r !! "last_name") = true →
     msg <$> mapped errs !! "last_name" = Some "Last name is required" ∧
     body_of r' !! "last_name" = Some (VStr "")) ∧
  (body_only "message" r → blank (body_of r !! "message") = true →
     msg <$> mapped errs !! "message" = Some "Message is required" ∧
     body_of r' !! "message" = Some (VStr "")).
Proof.
  intros Hrun. split; [|split]; intros Hbody (Hsingle & s & Hs & Hblank)%blank_to_string.
  - pose proof (validated_body_field r r' errs _ _ first_name_in_validateForm Hbody Hrun)
      as Hchain.
    unfold first_name_chain in Hchain.
    rewrite (text_chain_single _ s _ _ _ Hsingle Hs) in Hchain. cbn zeta in Hchain.
    rewrite Hblank in Hchain. injection Hchain as <- Hkeyed.
    rewrite mapped_keyed, <- Hkeyed. split; reflexivity.
  - pose proof (validated_body_field r r' errs _ _ last_name_in_validateForm Hbody Hrun)
      as Hchain.
    unfold last_name_chain in Hchain.
    rewrite (text_chain_single _ s _ _ _ Hsingle Hs) in Hchain. cbn zeta in Hchain.
    rewrite Hblank in Hchain. injection Hchain as <- Hkeyed.
    rewrite mapped_keyed, <- Hkeyed. split; reflexivity.
  - pose proof (validated_body_field r r' errs _ _ message_in_validateForm Hbody Hrun)
      as Hchain.
    unfold message_chain in Hchain.
    rewrite (message_chain_single _ s _ Hsingle Hs) in Hchain. cbn zeta in Hchain.
    rewrite Hblank in Hchain. injection Hchain as <- Hkeyed.
    rewrite mapped_keyed, <- Hkeyed. split; reflexivity.
Qed.

(** X17. Escaping never costs a submission its length: a first name that
    the body alone carries, as a string of at least 3 characters once
    trimmed, gets no error; so for a last name of at least 2 and a message of
    at least one, whatever code units below 256 they are made of. *)
Theorem long_enough_text_is_accepted (r r' : request) errs s :
  run_middlewares validateForm r = Some (r', errs) →
  (body_only "first_name" r → body_of r !! "first_name" = Some (VStr s) →
     (3 ≤ String.length (trim s))%nat → mapped errs !! "first_name" = None) ∧
  (body_only "last_name" r → body_of r !! "last_name" = Some (VStr s) →
     (2 ≤ String.length (trim s))%nat → mapped errs !! "last_name" = None) ∧
  (body_only "message" r → body_of r !! "message" = Some (VStr s) →
     (1 ≤ String.length (trim s))%nat → mapped errs !! "message" = None).
Proof.
  intros Hrun.
  assert (Hne : ∀ n, (S n ≤ String.length (trim s))%nat → trim s ≠ "").
  { intros n Hn Heq. rewrite Heq in Hn. simpl in Hn. lia. }
  split; [|split]; intros Hbody Hb Hlen.
  - pose proof (validated_body_field r r' errs _ _ first_name_in_validateForm Hbody Hrun)
      as Hchain.
    unfold first_name_chain in Hchain. rewrite Hb in Hchain.
    rewrite (text_chain_single (Some (VStr s)) s _ _ _ I eq_refl) in Hchain.
    cbn zeta in Hchain.
    rewrite (isLength_escape 3 _ Hlen), (isEmpty_escape _ (Hne _ Hlen)) in Hchain.
    injection Hchain as _ Hkeyed. rewrite mapped_keyed, <- Hkeyed. reflexivity.
  - pose proof (validated_body_field r r' errs _ _ last_name_in_validateForm Hbody Hrun)
      as Hchain.
    unfold last_name_chain in Hchain. rewrite Hb in Hchain.
    rewrite (text_chain_single (Some (VStr s)) s _ _ _ I eq_refl) in Hchain.
    cbn zeta in Hchain.
    rewrite (isLength_escape 2 _ Hlen), (isEmpty_escape _ (Hne _ Hlen)) in Hchain.
    injection Hchain as _ Hkeyed. rewrite mapped_keyed, <- Hkeyed. reflexivity.
  - pose proof (validated_body_field r r' errs _ _ message_in_validateForm Hbody Hrun)
      as Hchain.
    unfold message_chain in Hchain. rewrite Hb in Hchain.
    rewrite (message_chain_single (Some (VStr s)) s _ I eq_refl) in Hchain.
    cbn zeta in Hchain.
    rewrite (isEmpty_escape _ (Hne _ Hlen)) in Hchain.
    injection Hchain as _ Hkeyed. rewrite mapped_keyed, <- Hkeyed. reflexivity.
Qed.

(** X18. A submission whose four validated fields only the body could
    carry, each at most once, passes the field rules exactly when the first
    name, trimmed and escaped, has at least 3 characters, the last name at
    least 2, the message at least one, and [isEmail] accepts what
    [normalizeEmail] made of the trimmed email. *)
Theorem valid_submission_characterized (r r' : request) errs s1 s2 s3 s4 :
  run_middlewares validateForm r = Some (r', errs) →
  (∀ f, f ∈ ["first_name"; "last_name"; "email"; "message"] →
        body_only f r ∧ single (body_of r !! f)) →
  to_string (body_of r !! "first_name") = Some s1 →
  to_string (body_of r !! "last_name") = Some s2 →
  to_string (body_of r !! "email") = Some s3 →
  to_string (body_of r !! "message") = Some s4 →
  errs = [] ↔
    (3 ≤ String.length (escape (trim s1)))%nat ∧
    (2 ≤ String.length (escape (trim s2)))%nat ∧
    isEmail (normalized_address (trim s3)) = true ∧
    escape (trim s4) ≠ "".
Proof.
  intros Hrun Hplain Hs1 Hs2 Hs3 Hs4.
  pose proof (Hplain "first_name" ltac:(rewrite !elem_of_cons; auto)) as [Hb1 Hv1].
  pose proof (Hplain "last_name" ltac:(rewrite !elem_of_cons; auto)) as [Hb2 Hv2].
  pose proof (Hplain "email" ltac:(rewrite !elem_of_cons; auto)) as [Hb3 Hv3].
  pose proof (Hplain "message" ltac:(rewrite !elem_of_cons; auto)) as [Hb4 Hv4].
  pose proof (validated_body_field r r' errs _ _ first_name_in_validateForm Hb1 Hrun) as H1.
  pose proof (validated_body_field r r' errs _ _ last_name_in_validateForm Hb2 Hrun) as H2.
  pose proof (validated_body_field r r' errs _ _ email_in_validateForm Hb3 Hrun) as H3.
  pose proof (validated_body_field r r' errs _ _ message_in_validateForm Hb4 Hrun) as H4.
  unfold first_name_chain in H1. unfold last_name_chain in H2. unfold message_chain in H4.
  rewrite (text_chain_single _ s1 _ _ _ Hv1 Hs1) in H1.
  rewrite (text_chain_single _ s2 _ _ _ Hv2 Hs2) in H2.
  rewrite (email_chain_result _ s3 Hv3 Hs3) in H3.
  rewrite (message_chain_single _ s4 _ Hv4 Hs4) in H4.
  cbn zeta in H1, H2, H4.
  injection H1 as _ H1. injection H2 as _ H2. injection H3 as _ H3. injection H4 as _ H4.
  rewrite (validated_no_error r r' errs Hrun), <- H1, <- H2, <- H3, <- H4.
  rewrite <- !Nat.leb_le, <- isEmpty_false.
  set (t1 := escape (trim s1)). set (t2 := escape (trim s2)). set (t4 := escape (trim s4)).
  change (3 <=? String.length t1)%nat with (isLength 3 t1).
  change (2 <=? String.length t2)%nat with (isLength 2 t2).
  destruct (isLength 3 t1) eqn:L1; [rewrite (isLength_nonempty _ _ L1)|];
    [|split; [destruct (isEmpty t1); intros [? _]; discriminate
             | intros [? _]; discriminate]].
  destruct (isLength 2 t2) eqn:L2; [rewrite (isLength_nonempty _ _ L2)|];
    [|split; [destruct (isEmpty t2); intros (_ & ? & _); discriminate
             | intros (_ & ? & _); discriminate]].
  destruct (isEmail (normalized_address (trim s3))) eqn:E;
    [|split; [intros (_ & _ & ? & _); discriminate
             | intros (_ & _ & ? & _); discriminate]].
  destruct (isEmpty t4) eqn:E4;
    [split; [intros (_ & _ & _ & ?); discriminate | intros (_ & _ & _ & ?); discriminate]|].
  split; intros _; repeat split; reflexivity.
Qed.

(** X19. Validation drops no field of [req.body] and defines those of the
    four it validates that no location of the request has: a field is in
    [req.body] afterwards exactly when it was submitted there, or is one of
    [first_name], [last_name], [email], [message] and is nowhere in the
    request. *)
Theorem fields_present_after_validation (r r' : request) errs k :
  run_middlewares validateForm r = Some (r', errs) →
  is_Some (body_of r' !! k) ↔
  is_Some (body_of r !! k) ∨
  (k ∈ ["first_name"; "last_name"; "email"; "message"] ∧ ∀ loc, req_at r loc !! k = None).
Proof.
  intros Hrun.
  destruct (decide (k ∈ ["first_name"; "last_name"; "email"; "message"])) as [Hin|Hout].
  - pose proof Hin as Hin'. rewrite <- validateForm_fields in Hin'.
    destruct (validateForm_chain k Hin') as [items Hitems].
    destruct (validateForm_sanitizes k items Hitems) as (f & rest & ->).
    assert (Hselected : Body ∈ instances k r → is_Some (body_of r' !! k)).
    { intros Hbody.
      destruct (validated_instance _ _ _ _ _ Body Hitems Hbody Hrun) as [e' He'].
      exact (sanitizing_chain_is_Some _ _ _ _ _ He'). }
    split.
    + intros Hs. destruct (body_of r !! k) as [v|] eqn:Hb; [left; eexists; reflexivity|].
      right. split; [exact Hin|].
      destruct (field_somewhere k r) as [Hnone | [loc Hloc]]; [exact Hnone|].
      rewrite (validated_body_skipped _ _ _ _ _ loc Hitems Hb Hloc Hrun) in Hs.
      destruct Hs; discriminate.
    + intros [Hs | [_ Hnone]]; apply Hselected, elem_of_instances;
        [left; exact Hs | right; split; [reflexivity | exact Hnone]].
  - change (body_of r') with (req_at r' Body).
    rewrite (proj1 (validated_other r r' errs k Hout Hrun) Body). cbn [req_at].
    split; [intros Hs; left; exact Hs|].
    intros [Hs|[Hin _]]; [exact Hs | contradiction].
Qed.

(** X20. [POST /contact-us] leaves the process alone, no call to the
    verifier, the mail relay or the list API, exactly when a chain of
    [validateForm] throws, a field rule fails, or the submitted token is
    missing, empty or cannot be converted to a string; then [data] is as it
    was, and the request ends with a 400 reply of the handler or with a
    [TypeError]. *)
Theorem no_outbound_call_iff_rejected_up_front (submitted : request) w g :
  let token := body_of submitted !! "g-recaptcha-response" in
  let result := run w (contact_us_post env submitted) g in
  (calls_of result = [] ↔
   match run_middlewares validateForm submitted with
   | None => True
   | Some (_, errs) => errs ≠ [] ∨ truthy token = false ∨ js_string_opt token = None
   end) ∧
  (calls_of result = [] →
   globals_of result = g ∧
   match outcome_of result with
   | Replied (Render status _ _) => status = 400%Z
   | Replied (Json _ _) => False
   | Threw e => e = TypeError
   | PassedOn e => e = TypeError
   end).
Proof.
  intros token result. subst token result. unfold contact_us_post.
  destruct (run_middlewares validateForm submitted) as [[r' errs]|] eqn:Hrun.
  2:{ split; [split; reflexivity|]. intros _. split; reflexivity. }
  rewrite handler_silent_iff, (token_untouched _ _ _ Hrun).
  split; [reflexivity|]. intros [Herr | [Ht | Hs]].
  - rewrite (run_invalid env _ _ w g Herr). split; reflexivity.
  - destruct errs as [|e errs].
    + rewrite (run_missing_token env _ w g);
        [|rewrite (token_untouched _ _ _ Hrun); exact Ht].
      split; reflexivity.
    + rewrite (run_invalid env _ _ w g); [|discriminate]. split; reflexivity.
  - destruct errs as [|e errs]; [|rewrite (run_invalid env _ _ w g); [|discriminate];
                                   split; reflexivity].
    destruct (truthy (body_of r' !! "g-recaptcha-response")) eqn:Ht.
    + rewrite (run_token_throws env _ w g Ht);
        [|rewrite (token_untouched _ _ _ Hrun); exact Hs].
      split; reflexivity.
    + rewrite (run_missing_token env _ w g Ht). split; reflexivity.
Qed.

End RouteProperties.

(** * The model at the sample data *)

#[local] Existing Instance sample_platform.

Lemma posting_body_only (b : body) field : body_only field (posting b).
Proof. intros loc Hloc. destruct loc; [congruence | reflexivity..]. Qed.

(** The sample submission passes the field rules and comes out of them as
    it went in. *)
Lemma sample_body_valid :
  run_middlewares validateForm (posting sample_body) = Some (posting sample_body, []).
Proof. vm_compute. reflexivity. Qed.

(** The scenarios of the specification, through the whole route. *)

Example scenario_A :
  ∃ ctx, run accepting_world (contact_us_post sample_env (posting short_name_body)) None
           = (Replied (Render 400 "contact" ctx), None, []) ∧
         msg <$> errors ctx !! "first_name"
           = Some "First name must be at least 3 characters long".
Proof. eexists. split; vm_compute; reflexivity. Qed.

Example scenario_B :
  run accepting_world (contact_us_post sample_env (posting sample_fields)) None
    = (captcha_reply 400 "Missing reCAPTCHA token. Please try again." sample_env sample_fields,
       None, []).
Proof. vm_compute. reflexivity. Qed.

Example scenario_C :
  outcome_of (run low_score_world (contact_us_post sample_env (posting sample_body)) None)
    = captcha_reply 403 "reCAPTCHA failed. Please try again." sample_env sample_body.
Proof. vm_compute. reflexivity. Qed.

Example scenario_D :
  outcome_of (run accepting_world (contact_us_post sample_env (posting sample_body)) None)
    = success_reply sample_env.
Proof. vm_compute. reflexivity. Qed.

Example scenario_E :
  outcome_of (run (with_list_api accepting_world list_error)
                (contact_us_post sample_env (posting newsletter_body)) None)
    = success_reply sample_env.
Proof. vm_compute. reflexivity. Qed.

Example scenario_F :
  outcome_of (run mail_down_world (contact_us_post sample_env (posting sample_body)) None)
    = Replied (Json 500 "Failed to send email").
Proof. vm_compute. reflexivity. Qed.

(** Submissions with an object where the form has a string. *)

(** [service[toString]=x]: the verifier accepts, and building the mail
    throws before [sendMail] is called. *)
Example object_service_throws_before_the_mail :
  run accepting_world (contact_us_post sample_env (posting odd_service_body)) None
    = (Threw TypeError, Some (verdict true 0.9 "submit"),
       verify_calls sample_env odd_service_body).
Proof. vm_compute. reflexivity. Qed.

(** [g-recaptcha-response[toString]=x]: the handler throws before the first
    call. *)
Example object_token_throws_before_any_call :
  run accepting_world (contact_us_post sample_env (posting odd_token_body)) None
    = (Threw TypeError, None, []).
Proof. vm_compute. reflexivity. Qed.

(** A score that cannot be converted: line 136 throws. *)
Example object_score_throws :
  run (answering odd_score_answer true None)
      (contact_us_post sample_env (posting sample_body)) None
    = (Threw TypeError, Some odd_score_answer, verify_calls sample_env sample_body).
Proof. vm_compute. reflexivity. Qed.

(** [first_name[toString]=]: the chain of the first name throws and the
    handler does not run. *)
Example object_first_name_stops_the_route :
  run accepting_world
      (contact_us_post sample_env
         (posting (<[ "first_name" := VObj [("toString", VStr "")] ]> sample_body))) None
    = (PassedOn TypeError, None, []).
Proof. vm_compute. reflexivity. Qed.

(** A first name in the query string is validated as the one in the body
    is: the valid body is rejected for the short first name of the query, and
    the body's first name is the one echoed. *)
Example query_field_is_validated_too :
  ∃ ctx,
    run accepting_world
        (contact_us_post sample_env
           (posting_with_query sample_body {[ "first_name" := VStr "Al" ]})) None
      = (Replied (Render 400 "contact" ctx), None, []) ∧
    errors ctx !! "first_name"
      = Some {| msg := "First name must be at least 3 characters long";
                value_of := Some (VStr "Al") |} ∧
    formData ctx !! "first_name" = Some (VStr "Lynn").
Proof. eexists. split; [|split]; vm_compute; reflexivity. Qed.

(** A first name that only the query string carries is validated there, and
    [req.body] stays without it. *)
Example query_only_field_leaves_the_body_alone :
  ∃ r',
    run_middlewares validateForm
      (posting_with_query (delete "first_name" sample_body) {[ "first_name" := VStr "Lynn" ]})
      = Some (r', []) ∧
    body_of r' !! "first_name" = None.
Proof. eexists. split; vm_compute; reflexivity. Qed.

Lemma answering_verifier_answers (req_body : body) d mail list_api :
  truthy (req_body !! "g-recaptcha-response") = true →
  is_Some (js_string_opt (req_body !! "g-recaptcha-response")) →
  verifier_answers req_body (answering d mail list_api) d.
Proof.
  intros Ht Hs. split; [exact Ht|]. split; [exact Hs|].
  split; [eexists; reflexivity|]. eexists. split; reflexivity.
Qed.

Lemma sample_body_answered d mail list_api :
  verifier_answers sample_body (answering d mail list_api) d.
Proof. apply answering_verifier_answers; [reflexivity | eexists; reflexivity]. Qed.

(** Two requests in one process: the answer the verifier gave for the first
    is in the global object while the second is being processed, until the
    second overwrites it. *)
Example data_is_shared_between_tasks :
  let requests :=
    [(low_score_world, posting sample_body); (accepting_world, posting sample_body)] in
  shared (execute [0; 0; 0] (arrive sample_env None requests))
    = Some (verdict true 0.3 "submit") ∧
  shared (execute [0; 0; 0; 1; 1] (arrive sample_env None requests))
    = Some (verdict true 0.3 "submit") ∧
  shared (execute [0; 0; 0; 1; 1; 1] (arrive sample_env None requests))
    = Some (verdict true 0.9 "submit").
Proof. vm_compute. repeat split; reflexivity. Qed.

(** ** The claims on the sample data *)


Lemma C2_witness :
  count_calls is_verify_call
    (calls_of (run accepting_world (handler sample_env sample_body []) None)) = 2.
Proof.
  apply (C2_two_verification_calls sample_env sample_body accepting_world None).
  - reflexivity.
  - eexists. reflexivity.
Defined.

Lemma C3_witness :
  outcome_of (run offline_world (handler sample_env sample_body []) None)
    = Threw FetchFailed ∧
  count_calls is_mail
    (calls_of (run offline_world (handler sample_env sample_body []) None)) = 0.
Proof.
  apply (C3_failure_of_first_fetch_is_uncaught sample_env sample_body offline_world None).
  - reflexivity.
  - reflexivity.
Defined.

Lemma C4_witness :
  ∃ ctx,
    run accepting_world (handler sample_env sample_fields []) None
      = (Replied (Render 400 "contact" ctx), None, []) ∧
    errors ctx = captcha_error "Missing reCAPTCHA token. Please try again." ∧
    (∃ e, errors ctx !! "captcha" = Some e ∧
          String.prefix "Missing reCAPTCHA token" (msg e) = true) ∧
    formData ctx = sample_fields ∧ successMessage ctx = None.
Proof.
  apply (C4_missing_token_rejected_before_any_call sample_env sample_fields).
  reflexivity.
Defined.



Lemma C6_witness :
  ∃ r' errs ctx,
    run_middlewares validateForm (posting short_name_body) = Some (r', errs) ∧
    run accepting_world (contact_us_post sample_env (posting short_name_body)) None
      = (Replied (Render 400 "contact" ctx), None, []) ∧
    formData ctx = body_of r' ∧
    formData ctx !! "last_name" = Some (VStr (escape (trim "O'Neil"))) ∧
    formData ctx ≠ short_name_body.
Proof.
  destruct (run_middlewares validateForm (posting short_name_body)) as [[r' errs]|] eqn:Hrun;
    [|vm_compute in Hrun; discriminate Hrun].
  assert (Herr : errs ≠ []).
  { vm_compute in Hrun. injection Hrun as _ <-. discriminate. }
  destruct (C6_rejected_form_echoes_sanitized_body sample_env (posting short_name_body)
              r' errs accepting_world None Hrun Herr)
    as (ctx & Hreply & Hform & _ & Htext & _).
  exists r', errs, ctx. split; [reflexivity|]. split; [exact Hreply|].
  split; [exact Hform|].
  destruct (Htext "last_name" "O'Neil") as [Hlast Hdiffers].
  - apply (list_elem_of_lookup_2 _ 1). reflexivity.
  - vm_compute. reflexivity.
  - split; [exact Hlast|]. apply Hdiffers. vm_compute. discriminate.
Defined.

(** The form of scenario A comes back with other input than was submitted:
    the first name [" Al"] trimmed, the last name [O'Neil] escaped. *)
Example C6_formData_is_not_the_submitted_input :
  ∃ ctx,
    run accepting_world (contact_us_post sample_env (posting short_name_body)) None
      = (Replied (Render 400 "contact" ctx), None, []) ∧
    short_name_body !! "first_name" = Some (VStr " Al") ∧
    formData ctx !! "first_name" = Some (VStr "Al") ∧
    short_name_body !! "last_name" = Some (VStr "O'Neil") ∧
    formData ctx !! "last_name" = Some (VStr "O&#x27;Neil") ∧
    formData ctx ≠ short_name_body.
Proof.
  eexists. split; [vm_compute; reflexivity|]. cbn [formData].
  split; [vm_compute; reflexivity|]. split; [vm_compute; reflexivity|].
  split; [vm_compute; reflexivity|]. split; [vm_compute; reflexivity|].
  intros Heq. apply (f_equal (λ m : body, m !! "first_name")) in Heq.
  vm_compute in Heq. discriminate Heq.
Qed.

Lemma C7_witness :
  outcome_of (run (with_list_api accepting_world list_error)
                (handler sample_env newsletter_body []) None)
    = success_reply sample_env ∧
  count_calls is_subscription
    (calls_of (run (with_list_api accepting_world list_error)
                 (handler sample_env newsletter_body []) None)) = 1 ∧
  ∃ ctx, success_reply sample_env = Replied (Render 200 "contact" ctx) ∧
         successMessage ctx = Some "Form submitted successfully!".
Proof.
  apply (C7_subscription_failure_is_swallowed sample_env newsletter_body [] accepting_world
           None list_error).
  - reflexivity.
  - vm_compute. discriminate.
  - reflexivity.
Defined.

Lemma C8_witness :
  ∃ d options,
    mailOptions sample_env sample_body = Some options ∧
    run mail_down_world (handler sample_env sample_body []) None =
      (Replied (Json 500 "Failed to send email"), Some d,
       (verify_calls sample_env sample_body
          ++ [ESendMail (transporter sample_env) options])%list) ∧
    count_calls is_mail
      (calls_of (run mail_down_world (handler sample_env sample_body []) None)) = 1 ∧
    count_calls is_subscription
      (calls_of (run mail_down_world (handler sample_env sample_body []) None)) = 0.
Proof.
  apply (C8_mail_failure_is_fatal sample_env sample_body [] mail_down_world None).
  - vm_compute. discriminate.
  - reflexivity.
Defined.

Lemma C9_witness :
  (String.length (trim "A&") < 3)%nat ∧
  ∃ r' errs,
    run_middlewares validateForm (posting ampersand_body) = Some (r', errs) ∧
    mapped errs !! "first_name" = None.
Proof.
  split; [vm_compute; lia|].
  destruct (run_middlewares validateForm (posting ampersand_body)) as [[r' errs]|] eqn:Hrun;
    [|vm_compute in Hrun; discriminate Hrun].
  exists r', errs. split; [reflexivity|].
  apply (proj2 (C9_first_name_is_measured_after_escaping sample_env (posting ampersand_body)
                  r' errs accepting_world None "A&" Hrun
                  (posting_body_only ampersand_body "first_name") I eq_refl)).
  vm_compute. lia.
Defined.

(** A first name of two characters passes the length test of three: [A&]
    is escaped to [A&amp;] before it is measured, and the submission is
    accepted. *)
Example C9_two_character_first_name_accepted :
  ampersand_body !! "first_name" = Some (VStr "A&") ∧
  String.length "A&" = 2 ∧
  run accepting_world (contact_us_post sample_env (posting ampersand_body)) None
    = (success_reply sample_env, Some (verdict true 0.9 "submit"),
       (verify_calls sample_env (<[ "first_name" := VStr "A&amp;" ]> sample_body)
          ++ mail_calls sample_env (<[ "first_name" := VStr "A&amp;" ]> sample_body))%list).
Proof. split; [|split]; vm_compute; reflexivity. Qed.



(** ** The further properties on the sample data *)

Lemma X1_witness :
  ∃ p, tasks (execute [1; 0; 0; 1; 1; 0; 1; 1; 1]
                (arrive sample_env None
                   [(low_score_world, posting sample_body);
                    (accepting_world, posting sample_body)]))
         !! 1 = Some (accepting_world, p) ∧
       (∀ o, finished p = Some o →
             o = outcome_of (run accepting_world
                               (contact_us_post sample_env (posting sample_body)) None)) ∧
       ((6 ≤ resumed [1; 0; 0; 1; 1; 0; 1; 1; 1] 1)%nat → is_Some (finished p)).
Proof.
  apply (outcome_independent_of_other_requests sample_env None
           [(low_score_world, posting sample_body); (accepting_world, posting sample_body)]).
  reflexivity.
Defined.

Lemma X7_witness :
  run flaky_world (handler sample_env sample_body []) None =
    (captcha_reply 500 "Error verifying reCAPTCHA. Please try again." sample_env sample_body,
     None, verify_calls sample_env sample_body) ∧
  count_calls is_verify_call
    (calls_of (run flaky_world (handler sample_env sample_body []) None)) = 2 ∧
  count_calls is_mail
    (calls_of (run flaky_world (handler sample_env sample_body []) None)) = 0.
Proof.
  apply (guarded_verification_failure_renders_500 sample_env sample_body flaky_world None).
  - reflexivity.
  - eexists. reflexivity.
  - eexists. reflexivity.
  - reflexivity.
Defined.

Lemma X8_witness :
  run null_world (handler sample_env sample_body []) None =
    (Threw TypeError, Some JNull, verify_calls sample_env sample_body) ∧
  count_calls is_mail
    (calls_of (run null_world (handler sample_env sample_body []) None)) = 0.
Proof.
  apply (null_answer_is_an_uncaught_TypeError sample_env sample_body null_world None).
  apply sample_body_answered.
Defined.

Lemma X9_witness :
  accepted scoreless_answer = true ∧
  count_calls is_mail
    (calls_of (run (answering scoreless_answer true None)
                 (handler sample_env sample_body []) None)) = 1.
Proof.
  apply (answer_without_score_is_accepted sample_env sample_body
           (answering scoreless_answer true None) None
           [("success", JBool true); ("action", JStr "submit")]).
  - apply sample_body_answered.
  - reflexivity.
  - reflexivity.
  - reflexivity.
Defined.

Lemma X10_witness :
  count_calls is_mail
    (calls_of (run low_score_world (handler sample_env sample_body []) None)) = 0 ∧
  outcome_of (run low_score_world (handler sample_env sample_body []) None)
    = captcha_reply 403 "reCAPTCHA failed. Please try again." sample_env sample_body.
Proof.
  pose proof (well_formed_answer_decides sample_env sample_body low_score_world None
                true 0.3 "submit" (sample_body_answered _ true None)) as Hd.
  cbv zeta in Hd. destruct Hd as [Hmail Hreply].
  split; [exact Hmail | apply Hreply; vm_compute; reflexivity].
Defined.

Lemma X11_witness :
  globals_of (run accepting_world (handler sample_env sample_fields []) (Some JNull))
    = Some JNull.
Proof.
  apply (data_untouched_without_answer sample_env sample_fields [] accepting_world
           (Some JNull)).
  intros d [_ [Ht _]]. vm_compute in Ht. discriminate Ht.
Defined.

Lemma X12_witness :
  ∃ ctx, contact_us_get sample_env = Render 200 "contact" ctx ∧ successMessage ctx = None ∧
    Render 200 "contact"
      {| title := "Contact Us"; errors := ∅; formData := ∅;
         successMessage := Some "Form submitted successfully!";
         siteKey := Some "site" |}
    = Render 200 "contact"
        {| title := title ctx; errors := errors ctx; formData := formData ctx;
           successMessage := Some "Form submitted successfully!";
           siteKey := siteKey ctx |}.
Proof.
  apply (success_page_is_the_blank_form sample_env sample_body [] accepting_world None).
  - reflexivity.
  - reflexivity.
Defined.

Lemma X13_witness :
  ∃ r1' errs1 r2' errs2,
    run_middlewares validateForm (posting sample_body) = Some (r1', errs1) ∧
    run_middlewares validateForm (posting short_name_body) = Some (r2', errs2) ∧
    mapped errs1 !! "email" = mapped errs2 !! "email" ∧ agree_on "email" r1' r2'.
Proof.
  destruct (run_middlewares validateForm (posting sample_body)) as [[r1' errs1]|] eqn:Hrun1;
    [|vm_compute in Hrun1; discriminate Hrun1].
  destruct (run_middlewares validateForm (posting short_name_body)) as [[r2' errs2]|]
    eqn:Hrun2; [|vm_compute in Hrun2; discriminate Hrun2].
  exists r1', errs1, r2', errs2. split; [reflexivity|]. split; [reflexivity|].
  apply (fields_are_validated_independently (posting sample_body) (posting short_name_body)
           r1' r2' errs1 errs2 "email").
  - apply (list_elem_of_lookup_2 _ 2). reflexivity.
  - intros loc. destruct loc; vm_compute; reflexivity.
  - exact Hrun1.
  - exact Hrun2.
Defined.

Lemma X14_witness :
  ∃ r' errs,
    run_middlewares validateForm (posting short_name_body) = Some (r', errs) ∧
    mapped errs ≠ ∅.
Proof.
  destruct (run_middlewares validateForm (posting short_name_body)) as [[r' errs]|] eqn:Hrun;
    [|vm_compute in Hrun; discriminate Hrun].
  exists r', errs. split; [reflexivity|].
  apply (proj1 (error_mapping_names_validated_fields (posting short_name_body) r' errs Hrun)).
  vm_compute in Hrun. injection Hrun as _ <-. discriminate.
Defined.

Lemma X15_witness :
  ∃ r' errs,
    run_middlewares validateForm (posting short_name_body) = Some (r', errs) ∧
    match body_of r' !! "last_name" with
    | Some v => value_markup_free v = true
    | None => body_of (posting short_name_body) !! "last_name" = None ∧
              ∃ loc, is_Some (req_at (posting short_name_body) loc !! "last_name")
    end.
Proof.
  destruct (run_middlewares validateForm (posting short_name_body)) as [[r' errs]|] eqn:Hrun;
    [|vm_compute in Hrun; discriminate Hrun].
  exists r', errs. split; [reflexivity|].
  apply (text_fields_are_escaped (posting short_name_body) r' errs "last_name" Hrun).
  apply (list_elem_of_lookup_2 _ 1). reflexivity.
Defined.

Lemma X16_witness :
  ∃ r' errs,
    run_middlewares validateForm (posting token_only_body) = Some (r', errs) ∧
    msg <$> mapped errs !! "first_name" = Some "First name is required" ∧
    body_of r' !! "first_name" = Some (VStr "").
Proof.
  destruct (run_middlewares validateForm (posting token_only_body)) as [[r' errs]|] eqn:Hrun;
    [|vm_compute in Hrun; discriminate Hrun].
  exists r', errs. split; [reflexivity|].
  apply (proj1 (blank_text_field_is_required (posting token_only_body) r' errs Hrun)).
  - apply posting_body_only.
  - vm_compute. reflexivity.
Defined.

Lemma X17_witness :
  ∃ r' errs,
    run_middlewares validateForm (posting ampersand_body) = Some (r', errs) ∧
    mapped errs !! "last_name" = None.
Proof.
  destruct (run_middlewares validateForm (posting ampersand_body)) as [[r' errs]|] eqn:Hrun;
    [|vm_compute in Hrun; discriminate Hrun].
  exists r', errs. split; [reflexivity|].
  apply (proj1 (proj2 (long_enough_text_is_accepted (posting ampersand_body) r' errs "Poon"
                         Hrun))).
  - apply posting_body_only.
  - vm_compute. reflexivity.
  - vm_compute. lia.
Defined.

Lemma X18_witness :
  ∃ r' errs,
    run_middlewares validateForm (posting sample_body) = Some (r', errs) ∧
    (errs = [] ↔
       (3 ≤ String.length (escape (trim "Lynn")))%nat ∧
       (2 ≤ String.length (escape (trim "Poon")))%nat ∧
       isEmail (normalized_address (trim "lynn@example.com")) = true ∧
       escape (trim "Hello") ≠ "").
Proof.
  destruct (run_middlewares validateForm (posting sample_body)) as [[r' errs]|] eqn:Hrun;
    [|vm_compute in Hrun; discriminate Hrun].
  exists r', errs. split; [reflexivity|].
  apply (valid_submission_characterized (posting sample_body) r' errs
           "Lynn" "Poon" "lynn@example.com" "Hello" Hrun).
  - intros f Hf. split; [apply posting_body_only|].
    rewrite !elem_of_cons in Hf.
    destruct Hf as [->|[->|[->|[->|Hnil]]]]; [vm_compute; exact I..|].
    inversion Hnil.
  - vm_compute. reflexivity.
  - vm_compute. reflexivity.
  - vm_compute. reflexivity.
  - vm_compute. reflexivity.
Defined.

Lemma X19_witness :
  ∃ r' errs,
    run_middlewares validateForm (posting token_only_body) = Some (r', errs) ∧
    (is_Some (body_of r' !! "message") ↔
     is_Some (body_of (posting token_only_body) !! "message") ∨
     ("message" ∈ ["first_name"; "last_name"; "email"; "message"] ∧
      ∀ loc, req_at (posting token_only_body) loc !! "message" = None)).
Proof.
  destruct (run_middlewares validateForm (posting token_only_body)) as [[r' errs]|] eqn:Hrun;
    [|vm_compute in Hrun; discriminate Hrun].
  exists r', errs. split; [reflexivity|].
  exact (fields_present_after_validation (posting token_only_body) r' errs "message" Hrun).
Defined.

Lemma X20_witness :
  globals_of (run accepting_world (contact_us_post sample_env (posting sample_fields)) None)
    = None ∧
  match outcome_of (run accepting_world
                      (contact_us_post sample_env (posting sample_fields)) None) with
  | Replied (Render status _ _) => status = 400%Z
  | Replied (Json _ _) => False
  | Threw e => e = TypeError
  | PassedOn e => e = TypeError
  end.
Proof.
  apply (proj2 (no_outbound_call_iff_rejected_up_front sample_env (posting sample_fields)
                  accepting_world None)).
  vm_compute. reflexivity.
Defined.
